(** * Order validation and margin computation of the exchange module

    A shallow embedding of the order-validation code of [chain/exchange/types]
    (message validation, order-type classification, permyriad scaling, margin
    requirements, identifier derivation) together with the properties that
    its specification states about it.

    Conventions of the embedding:
    - a [*big.Int] that is not nil is a [Z];
    - a Go byte slice is a [slice]: its visible elements and the rest of its
      backing array, because a slice expression [s[:n]] is bounded by the
      capacity and not by the length;
    - a Go [uint64] is a [Z] reduced modulo [2^64];
    - a run-time panic is the outcome [Panics], a normal return [Returns];
    - a method with a pointer receiver [*Order] takes the order and returns
      the order as the call leaves it. *)

From Stdlib Require Import ZArith String Ascii DecimalString DecimalPos Bool List Lia.
From Stdlib.Strings Require Import Byte.
Import ListNotations.

Open Scope string_scope.
Open Scope list_scope.
Open Scope Z_scope.

(** ** Outcomes of a call *)

Inductive fault : Type :=
| SliceBoundsOutOfRange   (* s[:n] with n > cap(s) *)
| IndexOutOfRange         (* s[i] with i outside 0 .. len(s)-1 *)
| DivisionByZero          (* math/big: "division by zero" *)
| AmountNotParsed.        (* arithmetic on an amount that did not parse *)

Inductive outcome (A : Type) : Type :=
| Returns (a : A)
| Panics (f : fault).

Arguments Returns {A} a.
Arguments Panics {A} f.

Definition bind {A B : Type} (m : outcome A) (k : A -> outcome B) : outcome B :=
  match m with
  | Returns a => k a
  | Panics f => Panics f
  end.

Notation "x <- m ;; k" := (bind m (fun x => k))
  (at level 61, m at next level, right associativity).
Notation "' p <- m ;; k" := (bind m (fun x => match x with p => k end))
  (at level 61, p pattern, m at next level, right associativity).

Definition returned {A : Type} (m : outcome A) : Prop := exists a, m = Returns a.

(** ** math/big *)

Module big.

(** [QuoRem]: the quotient truncated toward zero and its remainder. *)
Definition QuoRem (x y : Z) : outcome (Z * Z) :=
  if y =? 0 then Panics DivisionByZero
  else Returns (Z.quot x y, Z.rem x y).

(** [Div], as math/big writes it: [QuoRem], then the quotient is moved by
    one when the remainder is negative. *)
Definition Div (x y : Z) : outcome Z :=
  let y_neg := y <? 0 in
  '(q, r) <- QuoRem x y ;;
  if r <? 0 then
    if y_neg then Returns (q + 1) else Returns (q - 1)
  else Returns q.

(** [Int.String]: base 10, a leading minus sign for negative numbers. *)
Definition String (x : Z) : string := NilZero.string_of_int (Z.to_int x).

(** [SetBytes]: the bytes read as a big-endian unsigned integer. *)
Definition SetBytes (buf : list byte) : Z :=
  fold_left (fun acc b => acc * 256 + Z.of_N (Byte.to_N b)) buf 0.

(** [Uint64]: the low 64 bits of the magnitude. *)
Definition Uint64 (x : Z) : Z := Z.abs x mod 2 ^ 64.

Fixpoint bytes_of_N (fuel : nat) (n : N) (acc : list byte) : list byte :=
  match fuel with
  | O => acc
  | S fuel' =>
      if (n =? 0)%N then acc
      else
        let b := match Byte.of_N (n mod 256) with Some b => b | None => x00 end in
        bytes_of_N fuel' (n / 256) (b :: acc)
  end.

(** [Bytes]: the magnitude as big-endian bytes, without leading zeros. *)
Definition Bytes (x : Z) : list byte :=
  let n := Z.abs_N x in bytes_of_N (N.size_nat n) n [].

End big.

(** ** Amounts *)

Definition digit_of (c : ascii) : option Z :=
  let n := Z.of_nat (nat_of_ascii c) in
  if (48 <=? n) && (n <=? 57) then Some (n - 48) else None.

Fixpoint digits (s : string) (acc : Z) : option Z :=
  match s with
  | EmptyString => Some acc
  | String c s' =>
      match digit_of c with
      | Some d => digits s' (10 * acc + d)
      | None => None
      end
  end.

(** Modelled from the spec: [BigNum.Int], the parser of an Amount, whose
    declaration is not among the sources at hand.  An Amount is a signed
    integer written as a base-10 decimal string; it parses losslessly or not
    at all, and a failure is never read as zero. *)
Definition BigNum_Int (n : string) : option Z :=
  match n with
  | EmptyString => None
  | String "-"%char (String c s) => option_map Z.opp (digits (String c s) 0)
  | String "+"%char (String c s) => digits (String c s) 0
  | _ => digits n 0
  end.

(** The integer of an amount, where the code goes on to compute with it. *)
Definition Int (n : string) : outcome Z :=
  match BigNum_Int n with
  | Some z => Returns z
  | None => Panics AmountNotParsed
  end.

(** ** Byte slices *)

Record slice : Type := mkSlice {
  elems : list byte;   (* s[0 .. len(s)-1] *)
  spare : list byte    (* the backing array from len(s) to cap(s)-1 *)
}.

Definition len (s : slice) : nat := length (elems s).
Definition cap (s : slice) : nat := length (elems s) + length (spare s).

(** [s[:n]]: in range iff [n <= cap(s)]; the result may reach into the part
    of the backing array that [s] did not show. *)
Definition slice_to (s : slice) (n : nat) : outcome slice :=
  if (n <=? cap s)%nat then
    Returns (mkSlice (firstn n (elems s ++ spare s)) (skipn n (elems s ++ spare s)))
  else Panics SliceBoundsOutOfRange.

(** [s[len(s)-1]]. *)
Definition last_byte (s : slice) : outcome byte :=
  match rev (elems s) with
  | b :: _ => Returns b
  | [] => Panics IndexOutOfRange
  end.

(** ** go-ethereum/common *)

Module common.

Definition HashLength : nat := 32.
Definition AddressLength : nat := 20.

(** [Hash{}.Bytes()]. *)
Definition zeroHash : list byte := repeat x00 HashLength.

(** Copy [b] right-aligned into an array of [n] zero bytes, keeping the
    last [n] bytes of a longer input. *)
Definition setBytes (n : nat) (b : list byte) : list byte :=
  let b' := skipn (length b - n) b in
  repeat x00 (n - length b') ++ b'.

Definition BytesToHash (b : list byte) : list byte := setBytes HashLength b.
Definition BytesToAddress (b : list byte) : list byte := setBytes AddressLength b.

Definition LeftPadBytes (b : list byte) (l : nat) : list byte :=
  if (l <=? length b)%nat then b else repeat x00 (l - length b) ++ b.

End common.

Fixpoint bytes_Equal (a b : list byte) : bool :=
  match a, b with
  | [], [] => true
  | x :: a', y :: b' => Byte.eqb x y && bytes_Equal a' b'
  | _, _ => false
  end.

(** ** Hexadecimal decoding

    [common.FromHex] belongs to go-ethereum and decodes through
    [encoding/hex].  The exchange code is embedded over any decoder (it is
    a parameter of the section below).  Two decoders are given here: both
    produce the same bytes, and they differ in the capacity of the slice
    they hand out. *)

Definition fromHexChar (c : ascii) : option N :=
  let n := N_of_ascii c in
  if ((48 <=? n) && (n <=? 57))%N then Some (n - 48)%N
  else if ((97 <=? n) && (n <=? 102))%N then Some (n - 97 + 10)%N
  else if ((65 <=? n) && (n <=? 70))%N then Some (n - 65 + 10)%N
  else None.

Definition byte_of_N (n : N) : byte :=
  match Byte.of_N n with Some b => b | None => x00 end.

(** [hex.Decode]: two characters a byte, up to the first character that is
    not a hexadecimal digit. *)
Fixpoint Decode (src : list ascii) : list byte :=
  match src with
  | p :: q :: rest =>
      match fromHexChar p, fromHexChar q with
      | Some a, Some b => byte_of_N (a * 16 + b) :: Decode rest
      | _, _ => []
      end
  | _ => []
  end.

Definition has0xPrefix (str : string) : bool :=
  match str with
  | String "0"%char (String "x"%char _) => true
  | String "0"%char (String "X"%char _) => true
  | _ => false
  end.

(** The text that [FromHex] decodes: the prefix removed, a ["0"] put in
    front of a text of odd length. *)
Definition hexText (s : string) : list ascii :=
  let s := if has0xPrefix s then substring 2 (String.length s - 2) s else s in
  let s := if Nat.odd (String.length s) then String "0"%char s else s in
  list_ascii_of_string s.

(** A decoder that allocates exactly the decoded bytes. *)
Definition FromHex_exact (s : string) : slice :=
  mkSlice (Decode (hexText s)) [].

(** A decoder that decodes in place over the bytes of the text: what it
    hands out is the front of that array, and the characters behind the
    decoded bytes stay in its capacity. *)
Definition FromHex_inplace (s : string) : slice :=
  let src := hexText s in
  let out := Decode src in
  mkSlice out (skipn (length out) (map byte_of_ascii src)).

(** ** Signature types

    The tags are declared by the [zeroex] package; their byte values are
    not among the sources, so they are taken as given. *)

Record SignatureTypes : Type := mkSignatureTypes {
  IllegalSignature : byte;
  InvalidSignature : byte;
  EIP712Signature : byte;
  EthSignSignature : byte;
  WalletSignature : byte;
  ValidatorSignature : byte;
  PreSignedSignature : byte;
  EIP1271WalletSignature : byte
}.

(** The cases of a Go [switch] over constants are pairwise distinct. *)
Definition distinct_tags (t : SignatureTypes) : Prop :=
  NoDup [IllegalSignature t; InvalidSignature t; EIP712Signature t;
         EthSignSignature t; WalletSignature t; ValidatorSignature t;
         PreSignedSignature t; EIP1271WalletSignature t].

(** ** Orders, markets, errors *)

Record BaseOrder : Type := mkBaseOrder {
  ChainId : Z;
  ExchangeAddress : string;
  MakerAddress : string;
  TakerAddress : string;
  FeeRecipientAddress : string;
  SenderAddress : string;
  MakerAssetAmount : string;
  TakerAssetAmount : string;
  MakerFee : string;
  TakerFee : string;
  ExpirationTimeSeconds : string;
  Salt : string;
  MakerAssetData : string;
  TakerAssetData : string;
  MakerFeeAssetData : string;
  TakerFeeAssetData : string;
  Signature : string
}.

(** The derivative order: the signed order and the two fields that
    validation writes. *)
Record Order : Type := mkOrder {
  GetOrder : BaseOrder;
  OrderType : Z;
  IndexPriceRequirement : string
}.

Definition set_OrderType (order : Order) (v : Z) : Order :=
  mkOrder (GetOrder order) v (IndexPriceRequirement order).

Definition set_IndexPriceRequirement (order : Order) (v : string) : Order :=
  mkOrder (GetOrder order) (OrderType order) v.

Record DerivativeMarket : Type := mkDerivativeMarket {
  Ticker : string;
  InitialMarginRatio : string;
  IndexPrice : string
}.

Inductive sentinel : Type :=
| ErrOrderExpired
| ErrOverLeveragedOrder
| ErrUnrecognizedOrderType.

(** [sdkerrors.Wrapf err format args]: the registered error and the
    formatted description. *)
Record error : Type := Wrapf {
  cause : sentinel;
  description : string
}.

(** ** Permyriad scaling *)

(** return (amount * permyriad) / 10000 *)
Definition ScalePermyriad (amount permyriad : Z) : outcome Z :=
  PERMYRIAD_BASE <- Int "10000" ;;
  let scaleFactor := amount * permyriad in
  big.Div scaleFactor PERMYRIAD_BASE.

(** return amount * (1 + permyriad/10000) = (amount + amount * permyriad/10000) *)
Definition IncrementByScaledPermyriad (amount permyriad : Z) : outcome Z :=
  scaled <- ScalePermyriad amount permyriad ;;
  Returns (amount + scaled).

(** ** Margin requirements *)

(** quantity * initialMarginRatio * price *)
Definition ComputeContractPriceMarginRequirement
    (order : Order) (market : DerivativeMarket) : outcome Z :=
  price <- Int (MakerAssetAmount (GetOrder order)) ;;
  quantity <- Int (TakerAssetAmount (GetOrder order)) ;;
  initialMarginRatio <- Int (InitialMarginRatio market) ;;
  alphaQuantity <- ScalePermyriad quantity initialMarginRatio ;;
  Returns (alphaQuantity * price).

Definition ComputeIndexPriceMarginRequirement
    (order : Order) (isLong : bool) (market : DerivativeMarket)
  : outcome (Order * Z) :=
  price <- Int (MakerAssetAmount (GetOrder order)) ;;
  quantity <- Int (TakerAssetAmount (GetOrder order)) ;;
  margin <- Int (MakerFee (GetOrder order)) ;;
  let pq := price * quantity in
  initialMarginRatio <- Int (InitialMarginRatio market) ;;
  alphaQuantity <- ScalePermyriad quantity initialMarginRatio ;;
  let '(num, denom) :=
    if isLong then (margin - pq, alphaQuantity - quantity)
    else (margin + pq, alphaQuantity + quantity) in
  indexPriceReq <- big.Div num denom ;;
  Returns (set_IndexPriceRequirement order (big.String indexPriceReq), indexPriceReq).

(** orderMarginHold = 1.0015 * margin * (remainingQuantity) / order.quantity *)
Definition ComputeOrderMarginHold
    (o : Order) (remainingQuantity makerTxFeePermyriad : Z) : outcome Z :=
  margin <- Int (MakerFee (GetOrder o)) ;;
  scaledMargin <- IncrementByScaledPermyriad margin makerTxFeePermyriad ;;
  originalQuantity <- Int (TakerAssetAmount (GetOrder o)) ;;
  let numerator := scaledMargin * remainingQuantity in
  big.Div numerator originalQuantity.

(** ** Rejections of the validation pipeline *)

Definition unrecognizedOrderType (makerFeeAssetData : string) : error :=
  Wrapf ErrUnrecognizedOrderType
    ("Cannot recognize MakerFeeAssetData of " ++ makerFeeAssetData)%string.

Definition orderExpired (orderExpirationTime blockTime : Z) : error :=
  Wrapf ErrOrderExpired
    ("order expiration " ++ big.String orderExpirationTime
       ++ " <= block time " ++ big.String blockTime)%string.

Definition overLeveragedContractPrice (margin requirement : Z) : error :=
  Wrapf ErrOverLeveragedOrder
    ("margin " ++ big.String margin
       ++ " < contractPriceMarginRequirement " ++ big.String requirement)%string.

Definition overLeveragedIndexPriceLong (indexPrice indexPriceReq : string) : error :=
  Wrapf ErrOverLeveragedOrder
    ("indexPrice " ++ indexPrice ++ " <= indexPriceReq " ++ indexPriceReq)%string.

Definition overLeveragedIndexPriceShort (indexPrice indexPriceReq : string) : error :=
  Wrapf ErrOverLeveragedOrder
    ("indexPrice " ++ indexPrice ++ " >= indexPriceReq " ++ indexPriceReq)%string.

(** The numerator and the denominator of the index-price requirement, as
    the two branches of [ComputeIndexPriceMarginRequirement] set them. *)
Definition indexPriceNumerator (isLong : bool) (margin price quantity : Z) : Z :=
  if isLong then margin - price * quantity else margin + price * quantity.

Definition indexPriceDenominator (isLong : bool) (alpha quantity : Z) : Z :=
  if isLong then alpha - quantity else alpha + quantity.

(** ** Messages

    The messages of the module and what their stateless checks return.  A
    check can end in three ways: it returns (an error or nil), it panics
    with a run-time fault, or it panics with an error value handed to
    [panic]. *)

Inductive panic : Type :=
| RuntimeFault (f : fault)
| PanicError (err : string).

Inductive exec (A : Type) : Type :=
| Completes (a : A)
| Panicked (p : panic).

Arguments Completes {A} a.
Arguments Panicked {A} p.

Definition run {A : Type} (m : outcome A) : exec A :=
  match m with
  | Returns a => Completes a
  | Panics f => Panicked (RuntimeFault f)
  end.

(** The registered errors that the checks wrap. *)
Inductive registered : Type :=
| ErrInvalidAddress
| ErrUnknownRequest
| ErrInsufficientOrderQuantity
| ErrBadField.

(** [sdkerrors.Wrap err description]. *)
Record wrapped : Type := Wrap {
  root : registered;
  reason : string
}.

Module ZeroEx.

(** [zeroex.SignedOrder], with the fields that [so2zo] fills. *)
Record SignedOrder : Type := mkSignedOrder {
  ChainID : Z;
  ExchangeAddress : list byte;
  MakerAddress : list byte;
  TakerAddress : list byte;
  SenderAddress : list byte;
  FeeRecipientAddress : list byte;
  MakerAssetData : slice;
  MakerFeeAssetData : slice;
  TakerAssetData : slice;
  TakerFeeAssetData : slice;
  MakerAssetAmount : Z;
  MakerFee : Z;
  TakerAssetAmount : Z;
  TakerFee : Z;
  ExpirationTimeSeconds : Z;
  Salt : Z;
  Signature : slice
}.

End ZeroEx.

Module SafeSignedOrder.

(** SafeSignedOrder is a special signed order structure for including in
    Msgs, because it consists of primitive types. *)
Record t : Type := mk {
  ChainID : Z;
  ExchangeAddress : list byte;
  MakerAddress : list byte;
  TakerAddress : list byte;
  FeeRecipientAddress : list byte;
  SenderAddress : list byte;
  MakerAssetAmount : string;
  TakerAssetAmount : string;
  MakerFee : string;
  TakerFee : string;
  ExpirationTimeSeconds : string;
  Salt : string;
  MakerAssetData : slice;
  TakerAssetData : slice;
  MakerFeeAssetData : slice;
  TakerFeeAssetData : slice;
  Signature : slice
}.

End SafeSignedOrder.





(** A name made of a base and a quote around one ["/"], neither of which
    trims to nothing. *)
Definition isPair (TrimSpace : string -> string) (name : string) : Prop :=
  exists base quote,
    name = (base ++ "/" ++ quote)%string
    /\ ~ In "/"%char (list_ascii_of_string base)
    /\ ~ In "/"%char (list_ascii_of_string quote)
    /\ TrimSpace base <> "" /\ TrimSpace quote <> "".

Module MsgCreateSpotOrder.
Record t : Type := mk { Sender : string; Order : option BaseOrder }.
End MsgCreateSpotOrder.

Module MsgCreateDerivativeOrder.
Record t : Type := mk { Sender : string; Order : option BaseOrder }.
End MsgCreateDerivativeOrder.

Module MsgRegisterSpotMarket.
Record t : Type := mk {
  Sender : string;
  Name : string;
  MakerAssetData : string;
  TakerAssetData : string
}.
End MsgRegisterSpotMarket.

(** The market of the message is taken to be present. *)
Module MsgRegisterDerivativeMarket.
Record t : Type := mk { Sender : string; Market : DerivativeMarket }.
End MsgRegisterDerivativeMarket.

Module MsgSuspendDerivativeMarket.
Record t : Type := mk {
  Sender : string;
  MarketId : string;
  ExchangeAddress : string
}.
End MsgSuspendDerivativeMarket.

Module MsgResumeDerivativeMarket.
Record t : Type := mk {
  Sender : string;
  MarketId : string;
  ExchangeAddress : string
}.
End MsgResumeDerivativeMarket.

Module MsgSuspendSpotMarket.
Record t : Type := mk { Sender : string; Name : string }.
End MsgSuspendSpotMarket.

Module MsgResumeSpotMarket.
Record t : Type := mk { Sender : string; Name : string }.
End MsgResumeSpotMarket.

(** [len(s) == 0]. *)
Definition empty (s : string) : bool :=
  match s with
  | EmptyString => true
  | String _ _ => false
  end.

(** [strings.Split(s, sep)] for a separator of one character: the pieces of
    [s] between the occurrences of [sep], one more than there are
    occurrences. *)
Fixpoint strings_Split (s : string) (sep : ascii) : list string :=
  match s with
  | EmptyString => [EmptyString]
  | String c s' =>
      if Ascii.eqb c sep then EmptyString :: strings_Split s' sep
      else
        match strings_Split s' sep with
        | piece :: pieces => String c piece :: pieces
        | [] => [String c EmptyString]
        end
  end.

(** The getter of a field of an order that may be nil. *)
Definition GetTakerAssetAmount (m : option BaseOrder) : string :=
  match m with
  | Some m => TakerAssetAmount m
  | None => ""
  end.

Definition ebind {A B : Type} (m : exec A) (k : A -> exec B) : exec B :=
  match m with
  | Completes a => k a
  | Panicked p => Panicked p
  end.

Notation "x <== m ;; k" := (ebind m (fun x => k))
  (at level 61, m at next level, right associativity).

(** ** Sample data

    The values at which the statements below are evaluated. *)

Definition baseOrder
    (price quantity margin expiration makerFeeAssetData : string) : BaseOrder :=
  {| ChainId := 1;
     ExchangeAddress := "0x0000000000000000000000000000000000000001";
     MakerAddress := "0x00000000000000000000000000000000000000aa";
     TakerAddress := "0x0";
     FeeRecipientAddress := "0x0";
     SenderAddress := "0x0";
     MakerAssetAmount := price;
     TakerAssetAmount := quantity;
     MakerFee := margin;
     TakerFee := "0";
     ExpirationTimeSeconds := expiration;
     Salt := "1";
     MakerAssetData := "0x00000000000000000000000000000000000000000000000000000000000000a1";
     TakerAssetData := "0x0000000000000000000000000000000000000000000000000000000000000000";
     MakerFeeAssetData := makerFeeAssetData;
     TakerFeeAssetData := "";
     Signature := "" |}.

Definition freshOrder (b : BaseOrder) : Order :=
  {| GetOrder := b; OrderType := 0; IndexPriceRequirement := "" |}.

(** The 32-byte words 0, 5 and 2^64, and a 20-byte word. *)
Definition word0 : string :=
  "0x0000000000000000000000000000000000000000000000000000000000000000".
Definition word5 : string :=
  "0x0000000000000000000000000000000000000000000000000000000000000005".
Definition word2p64 : string :=
  "0x0000000000000000000000000000000000000000000000010000000000000000".
Definition short20 : string :=
  "0x0000000000000000000000000000000000000005".

(** price 100, quantity 10, margin 150, expiring at 2000. *)
Definition sampleOrder : Order := freshOrder (baseOrder "100" "10" "150" "2000" word5).

(** initialMarginRatio 1000 (10 percent), index price 95. *)
Definition sampleMarket : DerivativeMarket :=
  {| Ticker := "INJ/USDT"; InitialMarginRatio := "1000"; IndexPrice := "95" |}.

(** The same market with an index price of 90. *)
Definition lowIndexMarket : DerivativeMarket :=
  {| Ticker := "INJ/USDT"; InitialMarginRatio := "1000"; IndexPrice := "90" |}.

(** initialMarginRatio 10000 (100 percent): scaling leaves the quantity as
    it is. *)
Definition fullMarginMarket : DerivativeMarket :=
  {| Ticker := "INJ/USDT"; InitialMarginRatio := "10000"; IndexPrice := "95" |}.

(** An order for quantity 0. *)
Definition emptyOrder : Order := freshOrder (baseOrder "100" "0" "150" "2000" word5).


(** The sample order with a margin of 1000, its whole notional value. *)
Definition fullyMarginedOrder : Order :=
  freshOrder (baseOrder "100" "10" "1000" "2000" word5).

(** The sample order with the 32-byte word 2^64 as makerFeeAssetData. *)
Definition wrappedOrder : Order :=
  freshOrder (baseOrder "100" "10" "150" "2000" word2p64).

(** The sample order with 20 bytes of makerFeeAssetData. *)
Definition shortDataOrder : Order :=
  freshOrder (baseOrder "100" "10" "150" "2000" short20).

(** An order whose takerAssetData is 20 zero bytes. *)
Definition twentyZeroTaker : BaseOrder :=
  {| ChainId := 1;
     ExchangeAddress := "0x0000000000000000000000000000000000000001";
     MakerAddress := "0x00000000000000000000000000000000000000aa";
     TakerAddress := "0x0";
     FeeRecipientAddress := "0x0";
     SenderAddress := "0x0";
     MakerAssetAmount := "100";
     TakerAssetAmount := "10";
     MakerFee := "150";
     TakerFee := "0";
     ExpirationTimeSeconds := "2000";
     Salt := "1";
     MakerAssetData := "0x00000000000000000000000000000000000000a1";
     TakerAssetData := "0x0000000000000000000000000000000000000000";
     MakerFeeAssetData := word5;
     TakerFeeAssetData := "";
     Signature := "" |}.

(** A signature of 66 bytes that ends in the EIP712 tag of [sampleTags]. *)
Definition signature66 : string :=
  "0x111111111111111111111111111111111111111111111111111111111111111111111111111111111111111111111111111111111111111111111111111111111102".

(** The tags in the order the 0x protocol numbers them. *)
Definition sampleTags : SignatureTypes :=
  {| IllegalSignature := x00; InvalidSignature := x01; EIP712Signature := x02;
     EthSignSignature := x03; WalletSignature := x04; ValidatorSignature := x05;
     PreSignedSignature := x06; EIP1271WalletSignature := x07 |}.

(** Any function can stand for the hash where a statement is evaluated:
    no property below depends on the digest. *)
Definition sampleHash (data : list byte) : list byte := common.BytesToHash data.

(** A parser of decimal amounts of at most 256 bits, the empty string read
    as zero, to evaluate the message checks with. *)
Definition decimalBig256 (s : string) : option Z :=
  if empty s then Some 0
  else
    match BigNum_Int s with
    | Some z => if Z.abs z <? 2 ^ 256 then Some z else None
    | None => None
    end.

(** An order hash that always succeeds, and the identity for the trimming
    of spaces: stand-ins where a statement about a message is evaluated. *)
Definition sampleOrderHash (o : option ZeroEx.SignedOrder)
  : list byte * option string := (common.zeroHash, None).
Definition noTrim (s : string) : string := s.

(** The signed order of the sample order, with the 66-byte signature. *)
Definition signedBaseOrder (quantity signature : string) : BaseOrder :=
  {| ChainId := 1;
     ExchangeAddress := "0x0000000000000000000000000000000000000001";
     MakerAddress := "0x00000000000000000000000000000000000000aa";
     TakerAddress := "0x0";
     FeeRecipientAddress := "0x0";
     SenderAddress := "0x0";
     MakerAssetAmount := "100";
     TakerAssetAmount := quantity;
     MakerFee := "150";
     TakerFee := "0";
     ExpirationTimeSeconds := "2000";
     Salt := "1";
     MakerAssetData := "0x00000000000000000000000000000000000000000000000000000000000000a1";
     TakerAssetData := word0;
     MakerFeeAssetData := word5;
     TakerFeeAssetData := "";
     Signature := signature |}.


Section Exchange.

(** [common.FromHex] and [crypto.Keccak256Hash] (applied to the
    concatenation of its arguments), and the signature tags of [zeroex]. *)
Variable FromHex : string -> slice.
Variable Keccak256Hash : list byte -> list byte.
Variable zeroex : SignatureTypes.

(** ** Signature format *)

(** isValidSignature checks that the signature of the order is correct *)
Definition isValidSignature (sig : string) : outcome bool :=
  let signature := FromHex sig in
  signatureType <- last_byte signature ;;
  let tagged t := Byte.eqb signatureType t in
  if tagged (InvalidSignature zeroex) || tagged (IllegalSignature zeroex) then
    Returns false
  else if tagged (EIP712Signature zeroex) then
    if negb (len signature =? 66)%nat then Returns false else Returns true
  else if tagged (EthSignSignature zeroex) then
    if negb (len signature =? 66)%nat then Returns false else Returns true
  else if tagged (ValidatorSignature zeroex) then
    if (len signature <? 21)%nat then Returns false else Returns true
  else if tagged (PreSignedSignature zeroex) || tagged (WalletSignature zeroex)
          || tagged (EIP1271WalletSignature zeroex) then
    Returns true
  else
    Returns false.

(** ** Order type *)

Definition ComputeAndSetOrderType (order : Order) : outcome (Order * option error) :=
  prefix <- slice_to (FromHex (MakerFeeAssetData (GetOrder order))) common.HashLength ;;
  let orderTypeNumber := big.Uint64 (big.SetBytes (elems prefix)) in
  if negb (orderTypeNumber =? 0) && negb (orderTypeNumber =? 5) then
    Returns (order, Some (unrecognizedOrderType (MakerFeeAssetData (GetOrder order))))
  else
    Returns (set_OrderType order orderTypeNumber, None).

(** ** The validation pipeline

    [currBlockTime] is the block time in Unix seconds. *)

Definition DoesValidationPass
    (order : Order) (isLong : bool) (market : DerivativeMarket) (currBlockTime : Z)
  : outcome (Order * option error) :=
  '(order, err) <- ComputeAndSetOrderType order ;;
  match err with
  | Some e => Returns (order, Some e)
  | None =>
      orderExpirationTime <- Int (ExpirationTimeSeconds (GetOrder order)) ;;
      let blockTime := currBlockTime in
      if orderExpirationTime <=? blockTime then
        Returns (order, Some (orderExpired orderExpirationTime blockTime))
      else
        margin <- Int (MakerFee (GetOrder order)) ;;
        contractPriceMarginRequirement <-
          ComputeContractPriceMarginRequirement order market ;;
        if margin <? contractPriceMarginRequirement then
          Returns (order, Some (overLeveragedContractPrice
                                  margin contractPriceMarginRequirement))
        else
          '(order, indexPriceMarginRequirement) <-
            ComputeIndexPriceMarginRequirement order isLong market ;;
          indexPrice <- Int (IndexPrice market) ;;
          if isLong && (indexPrice <? indexPriceMarginRequirement) then
            Returns (order, Some (overLeveragedIndexPriceLong
                                    (IndexPrice market) (IndexPriceRequirement order)))
          else if negb isLong && (indexPrice >? indexPriceMarginRequirement) then
            Returns (order, Some (overLeveragedIndexPriceShort
                                    (IndexPrice market) (IndexPriceRequirement order)))
          else
            Returns (order, None)
  end.

(** ** Identifiers *)

Definition HexToAddress (s : string) : list byte :=
  common.BytesToAddress (elems (FromHex s)).

Definition ComputeSubaccountID (makerAddress takerFee : string) : outcome (list byte) :=
  fee <- Int takerFee ;;
  Returns (Keccak256Hash
             (HexToAddress makerAddress
                ++ common.LeftPadBytes (big.Bytes fee) 32)).

(** GetDirectionMarketAndSubaccountID *)
Definition GetDirectionMarketAndSubaccountID (m : BaseOrder)
  : outcome (bool * list byte * list byte) :=
  let mData := FromHex (MakerAssetData m) in
  let tData := FromHex (TakerAssetData m) in
  mData <- (if (common.HashLength <? len mData)%nat
            then slice_to mData common.HashLength else Returns mData) ;;
  tData <- (if (common.HashLength <? len tData)%nat
            then slice_to tData common.HashLength else Returns tData) ;;
  let '(isLong, marketID) :=
    if bytes_Equal (elems tData) common.zeroHash
    then (true, common.BytesToHash (elems mData))
    else (false, common.BytesToHash (elems tData)) in
  subaccountID <- ComputeSubaccountID (MakerAddress m) (TakerFee m) ;;
  Returns (isLong, marketID, subaccountID).



(** *** The messages and their stateless checks

    [math.ParseBig256] (go-ethereum), the order hash of [zeroex] and
    [strings.TrimSpace] are taken as given. *)

Section Messages.

Variable ParseBig256 : string -> option Z.
Variable ComputeOrderHash : option ZeroEx.SignedOrder -> list byte * option string.
Variable TrimSpace : string -> string.

(** so2zo internal function converts model from *SafeSignedOrder to
    *zeroex.SignedOrder. *)
Definition so2zo (o : option BaseOrder)
  : option ZeroEx.SignedOrder * option string :=
  match o with
  | None => (None, None)
  | Some o =>
    match ParseBig256 (MakerAssetAmount o) with
    | None => (None, Some "makerAssetAmmount parse failed")
    | Some makerAssetAmount =>
    match ParseBig256 (MakerFee o) with
    | None => (None, Some "makerFee parse failed")
    | Some makerFee =>
    match ParseBig256 (TakerAssetAmount o) with
    | None => (None, Some "takerAssetAmmount parse failed")
    | Some takerAssetAmount =>
    match ParseBig256 (TakerFee o) with
    | None => (None, Some "takerFee parse failed")
    | Some takerFee =>
    match ParseBig256 (ExpirationTimeSeconds o) with
    | None => (None, Some "expirationTimeSeconds parse failed")
    | Some expirationTimeSeconds =>
    match ParseBig256 (Salt o) with
    | None => (None, Some "salt parse failed")
    | Some salt =>
        (Some {| ZeroEx.ChainID := ChainId o;
                 ZeroEx.ExchangeAddress := HexToAddress (ExchangeAddress o);
                 ZeroEx.MakerAddress := HexToAddress (MakerAddress o);
                 ZeroEx.TakerAddress := HexToAddress (TakerAddress o);
                 ZeroEx.SenderAddress := HexToAddress (SenderAddress o);
                 ZeroEx.FeeRecipientAddress := HexToAddress (FeeRecipientAddress o);
                 ZeroEx.MakerAssetData := FromHex (MakerAssetData o);
                 ZeroEx.MakerFeeAssetData := FromHex (MakerFeeAssetData o);
                 ZeroEx.TakerAssetData := FromHex (TakerAssetData o);
                 ZeroEx.TakerFeeAssetData := FromHex (TakerFeeAssetData o);
                 ZeroEx.MakerAssetAmount := makerAssetAmount;
                 ZeroEx.MakerFee := makerFee;
                 ZeroEx.TakerAssetAmount := takerAssetAmount;
                 ZeroEx.TakerFee := takerFee;
                 ZeroEx.ExpirationTimeSeconds := expirationTimeSeconds;
                 ZeroEx.Salt := salt;
                 ZeroEx.Signature := FromHex (Signature o) |},
         None)
    end end end end end end
  end.

(** ToSignedOrder returns an appropriate zeroex.SignedOrder defined by
    SafeSignedOrder. *)
Definition ToSignedOrder (m : option BaseOrder) : exec (option ZeroEx.SignedOrder) :=
  let '(o, err) := so2zo m in
  match err with
  | Some err => Panicked (PanicError err)
  | None => Completes o
  end.

(** ValidateBasic runs stateless checks on the message *)
Definition MsgCreateSpotOrder_ValidateBasic (msg : MsgCreateSpotOrder.t)
  : exec (option wrapped) :=
  if empty (MsgCreateSpotOrder.Sender msg) then
    Completes (Some (Wrap ErrInvalidAddress (MsgCreateSpotOrder.Sender msg)))
  else
    let quantity := BigNum_Int (GetTakerAssetAmount (MsgCreateSpotOrder.Order msg)) in
    match MsgCreateSpotOrder.Order msg with
    | None => Completes (Some (Wrap ErrUnknownRequest "no make order specified"))
    | Some order =>
        signedOrder <== ToSignedOrder (Some order) ;;
        match snd (ComputeOrderHash signedOrder) with
        | Some err =>
            Completes (Some (Wrap ErrUnknownRequest
                               ("hash check failed: " ++ err)%string))
        | None =>
            valid <== run (isValidSignature (Signature order)) ;;
            if negb valid then
              Completes (Some (Wrap ErrUnknownRequest "invalid signature"))
            else
              match quantity with
              | None =>
                  Completes (Some (Wrap ErrInsufficientOrderQuantity
                                     "insufficient quantity"))
              | Some quantity =>
                  if quantity <=? 0 then
                    Completes (Some (Wrap ErrInsufficientOrderQuantity
                                       "insufficient quantity"))
                  else Completes None
              end
        end
    end.

(** ValidateBasic runs stateless checks on the message *)
Definition MsgCreateDerivativeOrder_ValidateBasic (msg : MsgCreateDerivativeOrder.t)
  : exec (option wrapped) :=
  if empty (MsgCreateDerivativeOrder.Sender msg) then
    Completes (Some (Wrap ErrInvalidAddress (MsgCreateDerivativeOrder.Sender msg)))
  else
    match MsgCreateDerivativeOrder.Order msg with
    | None => Completes (Some (Wrap ErrUnknownRequest "no make order specified"))
    | Some order =>
        signedOrder <== ToSignedOrder (Some order) ;;
        match snd (ComputeOrderHash signedOrder) with
        | Some err =>
            Completes (Some (Wrap ErrUnknownRequest
                               ("hash check failed: " ++ err)%string))
        | None =>
            valid <== run (isValidSignature (Signature order)) ;;
            if negb valid then
              Completes (Some (Wrap ErrUnknownRequest "invalid signature"))
            else Completes None
        end
    end.

(** The test of a pair name or a ticker, as both registration checks
    write it: anything but two pieces around one ["/"], or a piece that
    trims to nothing. *)
Definition notAPair (name : string) : bool :=
  let parts := strings_Split name "/" in
  match parts with
  | [base; quote] => empty (TrimSpace base) || empty (TrimSpace quote)
  | _ => true
  end.

(** ValidateBasic runs stateless checks on the message *)
Definition MsgRegisterSpotMarket_ValidateBasic (msg : MsgRegisterSpotMarket.t)
  : option wrapped :=
  if empty (MsgRegisterSpotMarket.Sender msg) then
    Some (Wrap ErrInvalidAddress (MsgRegisterSpotMarket.Sender msg))
  else if empty (MsgRegisterSpotMarket.Name msg) then
    Some (Wrap ErrBadField "no trade pair name specified")
  else if notAPair (MsgRegisterSpotMarket.Name msg) then
    Some (Wrap ErrBadField "pair name must be in format AAA/BBB")
  else if empty (MsgRegisterSpotMarket.MakerAssetData msg) then
    Some (Wrap ErrBadField "no maker asset data specified")
  else if empty (MsgRegisterSpotMarket.TakerAssetData msg) then
    Some (Wrap ErrBadField "no taker asset data specified")
  else None.

(** ValidateBasic runs stateless checks on the message *)
Definition MsgRegisterDerivativeMarket_ValidateBasic
    (msg : MsgRegisterDerivativeMarket.t) : option wrapped :=
  if empty (MsgRegisterDerivativeMarket.Sender msg) then
    Some (Wrap ErrInvalidAddress (MsgRegisterDerivativeMarket.Sender msg))
  else
    let market := MsgRegisterDerivativeMarket.Market msg in
    if empty (Ticker market) then
      Some (Wrap ErrBadField "no market ticker name specified")
    else if notAPair (Ticker market) then
      Some (Wrap ErrBadField "market ticker must be in format AAA/BBB")
    else None.

(** ValidateBasic runs stateless checks on the message *)
Definition MsgSuspendDerivativeMarket_ValidateBasic
    (msg : MsgSuspendDerivativeMarket.t) : option wrapped :=
  if empty (MsgSuspendDerivativeMarket.Sender msg) then
    Some (Wrap ErrInvalidAddress (MsgSuspendDerivativeMarket.Sender msg))
  else if empty (MsgSuspendDerivativeMarket.MarketId msg) then
    Some (Wrap ErrBadField "no derivative market ID specified")
  else if empty (MsgSuspendDerivativeMarket.ExchangeAddress msg) then
    Some (Wrap ErrBadField "no derivative exchange address specified")
  else None.

(** ValidateBasic runs stateless checks on the message *)
Definition MsgResumeDerivativeMarket_ValidateBasic
    (msg : MsgResumeDerivativeMarket.t) : option wrapped :=
  if empty (MsgResumeDerivativeMarket.Sender msg) then
    Some (Wrap ErrInvalidAddress (MsgResumeDerivativeMarket.Sender msg))
  else if empty (MsgResumeDerivativeMarket.MarketId msg) then
    Some (Wrap ErrBadField "no derivative market ID specified")
  else if empty (MsgResumeDerivativeMarket.ExchangeAddress msg) then
    Some (Wrap ErrBadField "no derivative market ID specified")
  else None.

(** ValidateBasic runs stateless checks on the message *)
Definition MsgSuspendSpotMarket_ValidateBasic
    (msg : MsgSuspendSpotMarket.t) : option wrapped :=
  if empty (MsgSuspendSpotMarket.Sender msg) then
    Some (Wrap ErrInvalidAddress (MsgSuspendSpotMarket.Sender msg))
  else if empty (MsgSuspendSpotMarket.Name msg) then
    Some (Wrap ErrBadField "no trade pair name specified")
  else None.

(** ValidateBasic runs stateless checks on the message *)
Definition MsgResumeSpotMarket_ValidateBasic
    (msg : MsgResumeSpotMarket.t) : option wrapped :=
  if empty (MsgResumeSpotMarket.Sender msg) then
    Some (Wrap ErrInvalidAddress (MsgResumeSpotMarket.Sender msg))
  else if empty (MsgResumeSpotMarket.Name msg) then
    Some (Wrap ErrBadField "no trade pair name specified")
  else None.

End Messages.

(** * Properties *)

(** ** Arithmetic of math/big *)

Lemma Int_parsed (n : string) (z : Z) : BigNum_Int n = Some z -> Int n = Returns z.
Proof. unfold Int. intros ->. reflexivity. Qed.

Lemma QuoRem_nonzero (x y : Z) :
  y <> 0 -> big.QuoRem x y = Returns (Z.quot x y, Z.rem x y).
Proof.
  intros Hy. unfold big.QuoRem.
  destruct (Z.eqb_spec y 0) as [E | _]; [contradiction | reflexivity].
Qed.

Lemma Div_by_zero (x : Z) : big.Div x 0 = Panics DivisionByZero.
Proof. reflexivity. Qed.

(** [Div] is Euclidean division: the remainder it leaves is never negative. *)
Lemma Div_euclidean (x y : Z) :
  y <> 0 ->
  exists q, big.Div x y = Returns q /\ 0 <= x - q * y < Z.abs y.
Proof.
  intros Hy. unfold big.Div. rewrite (QuoRem_nonzero x y Hy). cbn [bind].
  pose proof (Z.quot_rem' x y) as Hqr.
  pose proof (Z.rem_bound_abs x y Hy) as Hb.
  destruct (Z.ltb_spec (Z.rem x y) 0) as [Hr | Hr].
  - destruct (Z.ltb_spec y 0) as [Hn | Hn]; eexists; (split; [reflexivity | lia]).
  - eexists; split; [reflexivity | lia].
Qed.

Lemma Div_positive (x y : Z) : 0 < y -> big.Div x y = Returns (x / y).
Proof.
  intros Hy.
  destruct (Div_euclidean x y) as [q [Hq Hb]]; [lia |].
  rewrite Hq. f_equal.
  apply (Z.div_unique x y q (x - q * y)); lia.
Qed.

Lemma Div_nonzero_returns (x y : Z) : y <> 0 -> returned (big.Div x y).
Proof.
  intros Hy. destruct (Div_euclidean x y Hy) as [q [Hq _]]. exists q. exact Hq.
Qed.

Lemma ScalePermyriad_floor (amount permyriad : Z) :
  ScalePermyriad amount permyriad = Returns (amount * permyriad / 10000).
Proof.
  unfold ScalePermyriad.
  change (Int "10000") with (Returns 10000). cbn [bind].
  apply Div_positive. lia.
Qed.

(** ** Permyriad scaling *)

(** C3 (as amended).  For all integers [amount] and [permyriad],
    negative ones included, [ScalePermyriad] never fails and returns the
    quotient of [amount * permyriad] by 10000 rounded toward minus infinity
    (the remainder it leaves lies in 0 .. 9999).  The result is the quotient
    truncated toward zero whenever the product is not negative. *)
Theorem ScalePermyriad_rounds_down (amount permyriad : Z) :
  exists r,
    ScalePermyriad amount permyriad = Returns r
    /\ r = amount * permyriad / 10000
    /\ 0 <= amount * permyriad - 10000 * r < 10000
    /\ (0 <= amount * permyriad -> r = Z.quot (amount * permyriad) 10000).
Proof.
  exists (amount * permyriad / 10000).
  split; [apply ScalePermyriad_floor |].
  split; [reflexivity |].
  split.
  - pose proof (Z.div_mod (amount * permyriad) 10000 ltac:(lia)) as Hdm.
    pose proof (Z.mod_pos_bound (amount * permyriad) 10000 ltac:(lia)) as Hm.
    lia.
  - intros Hnn. symmetry. apply Z.quot_div_nonneg; lia.
Qed.

(** ** Margin requirements *)

Lemma ComputeIndexPriceMarginRequirement_unfold
    (order : Order) (isLong : bool) (market : DerivativeMarket)
    (price quantity margin ratio alpha : Z) :
  BigNum_Int (MakerAssetAmount (GetOrder order)) = Some price ->
  BigNum_Int (TakerAssetAmount (GetOrder order)) = Some quantity ->
  BigNum_Int (MakerFee (GetOrder order)) = Some margin ->
  BigNum_Int (InitialMarginRatio market) = Some ratio ->
  ScalePermyriad quantity ratio = Returns alpha ->
  ComputeIndexPriceMarginRequirement order isLong market =
    (indexPriceReq <- big.Div (indexPriceNumerator isLong margin price quantity)
                              (indexPriceDenominator isLong alpha quantity) ;;
     Returns (set_IndexPriceRequirement order (big.String indexPriceReq),
              indexPriceReq)).
Proof.
  intros Hp Hq Hm Hr Ha. unfold ComputeIndexPriceMarginRequirement.
  rewrite (Int_parsed _ _ Hp), (Int_parsed _ _ Hq), (Int_parsed _ _ Hm),
    (Int_parsed _ _ Hr).
  cbn [bind]. rewrite Ha. cbn [bind].
  destruct isLong; reflexivity.
Qed.

(** C1 (as amended).  For an order whose amounts parse and whose
    denominator is not zero, [ComputeIndexPriceMarginRequirement] returns,
    for a long order, the Euclidean quotient of [margin - price*quantity] by
    [scale(quantity, initialMarginRatio) - quantity], and for a short order
    that of [margin + price*quantity] by
    [scale(quantity, initialMarginRatio) + quantity]: the quotient whose
    remainder is not negative.  The decimal string of the result is stored
    as the order's [IndexPriceRequirement]. *)
Theorem ComputeIndexPriceMarginRequirement_euclidean
    (order : Order) (isLong : bool) (market : DerivativeMarket)
    (price quantity margin ratio alpha : Z) :
  BigNum_Int (MakerAssetAmount (GetOrder order)) = Some price ->
  BigNum_Int (TakerAssetAmount (GetOrder order)) = Some quantity ->
  BigNum_Int (MakerFee (GetOrder order)) = Some margin ->
  BigNum_Int (InitialMarginRatio market) = Some ratio ->
  ScalePermyriad quantity ratio = Returns alpha ->
  let num := if isLong then margin - price * quantity
             else margin + price * quantity in
  let denom := if isLong then alpha - quantity else alpha + quantity in
  denom <> 0 ->
  exists req,
    ComputeIndexPriceMarginRequirement order isLong market =
      Returns (set_IndexPriceRequirement order (big.String req), req)
    /\ 0 <= num - req * denom < Z.abs denom.
Proof.
  intros Hp Hq Hm Hr Ha num denom Hd.
  rewrite (ComputeIndexPriceMarginRequirement_unfold _ _ _ _ _ _ _ _ Hp Hq Hm Hr Ha).
  destruct (Div_euclidean num denom Hd) as [req [Hreq Hb]].
  exists req. split; [| exact Hb].
  unfold indexPriceNumerator, indexPriceDenominator.
  fold num. fold denom. rewrite Hreq. reflexivity.
Qed.

(** C2 (as amended).  With a zero denominator
    [ComputeIndexPriceMarginRequirement] does not return: the division of
    math/big panics with its division-by-zero fault, and so does
    [ComputeOrderMarginHold] for an order whose quantity is 0.  Neither
    function has an error result. *)
Theorem zero_denominator_panics :
  (forall (order : Order) (isLong : bool) (market : DerivativeMarket)
          (price quantity margin ratio alpha : Z),
      BigNum_Int (MakerAssetAmount (GetOrder order)) = Some price ->
      BigNum_Int (TakerAssetAmount (GetOrder order)) = Some quantity ->
      BigNum_Int (MakerFee (GetOrder order)) = Some margin ->
      BigNum_Int (InitialMarginRatio market) = Some ratio ->
      ScalePermyriad quantity ratio = Returns alpha ->
      (if isLong then alpha = quantity else alpha = - quantity) ->
      ComputeIndexPriceMarginRequirement order isLong market
        = Panics DivisionByZero)
  /\
  (forall (o : Order) (remainingQuantity makerTxFeePermyriad margin : Z),
      BigNum_Int (MakerFee (GetOrder o)) = Some margin ->
      BigNum_Int (TakerAssetAmount (GetOrder o)) = Some 0 ->
      ComputeOrderMarginHold o remainingQuantity makerTxFeePermyriad
        = Panics DivisionByZero).
Proof.
  split.
  - intros order isLong market price quantity margin ratio alpha Hp Hq Hm Hr Ha Hz.
    rewrite (ComputeIndexPriceMarginRequirement_unfold _ _ _ _ _ _ _ _ Hp Hq Hm Hr Ha).
    assert (indexPriceDenominator isLong alpha quantity = 0) as ->.
    { unfold indexPriceDenominator. destruct isLong; lia. }
    rewrite Div_by_zero. reflexivity.
  - intros o remainingQuantity makerTxFeePermyriad margin Hm Hq.
    unfold ComputeOrderMarginHold, IncrementByScaledPermyriad.
    rewrite (Int_parsed _ _ Hm), (Int_parsed _ _ Hq). cbn [bind].
    rewrite ScalePermyriad_floor. cbn [bind].
    apply Div_by_zero.
Qed.

(** ** Signature format *)

Lemma last_byte_snoc (s : slice) (front : list byte) (tag : byte) :
  elems s = front ++ [tag] -> last_byte s = Returns tag.
Proof.
  intros E. unfold last_byte. rewrite E, rev_app_distr. reflexivity.
Qed.

Lemma byte_eqb_refl (b : byte) : Byte.eqb b b = true.
Proof. apply byte_dec_lb. reflexivity. Qed.

Lemma byte_eqb_neq (a b : byte) : a <> b -> Byte.eqb a b = false.
Proof.
  intros N. destruct (Byte.eqb a b) eqn:E; [| reflexivity].
  apply byte_dec_bl in E. contradiction.
Qed.

Ltac tag_tests :=
  repeat match goal with
    | |- context [Byte.eqb ?a ?a] => rewrite (byte_eqb_refl a)
    | |- context [Byte.eqb ?a ?b] =>
        rewrite (byte_eqb_neq a b) by (intros E; intuition congruence)
    end.

(** C9.  [isValidSignature] dispatches on the last byte of the decoded
    signature: false for the Invalid and Illegal tags; for the EIP712 and
    EthSign tags, true iff the signature is 66 bytes long; for the Validator
    tag, true iff it is at least 21 bytes long; true for the PreSigned,
    Wallet and EIP1271-wallet tags; false for every other tag. *)
Theorem isValidSignature_by_tag (sig : string) (front : list byte) (tag : byte) :
  distinct_tags zeroex ->
  elems (FromHex sig) = front ++ [tag] ->
  let n := length (elems (FromHex sig)) in
  (tag = InvalidSignature zeroex \/ tag = IllegalSignature zeroex ->
     isValidSignature sig = Returns false)
  /\ (tag = EIP712Signature zeroex \/ tag = EthSignSignature zeroex ->
        isValidSignature sig = Returns (n =? 66)%nat)
  /\ (tag = ValidatorSignature zeroex ->
        isValidSignature sig = Returns (21 <=? n)%nat)
  /\ (tag = PreSignedSignature zeroex \/ tag = WalletSignature zeroex
      \/ tag = EIP1271WalletSignature zeroex ->
        isValidSignature sig = Returns true)
  /\ (~ In tag [IllegalSignature zeroex; InvalidSignature zeroex;
                EIP712Signature zeroex; EthSignSignature zeroex;
                WalletSignature zeroex; ValidatorSignature zeroex;
                PreSignedSignature zeroex; EIP1271WalletSignature zeroex] ->
        isValidSignature sig = Returns false).
Proof.
  clear Keccak256Hash.
  intros Hd Hs n.
  unfold isValidSignature. rewrite (last_byte_snoc _ _ _ Hs). cbn [bind].
  unfold len. fold n.
  unfold distinct_tags in Hd.
  repeat match goal with
    | H : NoDup (_ :: _) |- _ => inversion H; clear H; subst
    end.
  cbn [In] in *.
  assert (Hlt : (n <? 21)%nat = negb (21 <=? n)%nat).
  { destruct (Nat.ltb_spec n 21), (Nat.leb_spec 21 n); try reflexivity; lia. }
  repeat split.
  - intros [-> | ->]; tag_tests; reflexivity.
  - intros [-> | ->]; tag_tests; cbn [orb]; destruct (n =? 66)%nat; reflexivity.
  - intros ->; tag_tests; cbn [orb]. rewrite Hlt.
    destruct (21 <=? n)%nat; reflexivity.
  - intros [-> | [-> | ->]]; tag_tests; reflexivity.
  - intros Hn. tag_tests. reflexivity.
Qed.

(** ** Order type *)

Lemma slice_to_in_range (s : slice) (n : nat) :
  (n <= cap s)%nat ->
  slice_to s n =
    Returns (mkSlice (firstn n (elems s ++ spare s)) (skipn n (elems s ++ spare s))).
Proof.
  intros H. unfold slice_to.
  destruct (Nat.leb_spec n (cap s)); [reflexivity | lia].
Qed.

Lemma slice_to_out_of_range (s : slice) (n : nat) :
  (cap s < n)%nat -> slice_to s n = Panics SliceBoundsOutOfRange.
Proof.
  intros H. unfold slice_to.
  destruct (Nat.leb_spec n (cap s)); [lia | reflexivity].
Qed.

Lemma len_le_cap (s : slice) : (len s <= cap s)%nat.
Proof. unfold len, cap. lia. Qed.

(** On a slice that shows at least [n] bytes, [s[:n]] shows its first [n]. *)
Lemma slice_to_visible (s : slice) (n : nat) :
  (n <= len s)%nat ->
  exists s', slice_to s n = Returns s' /\ elems s' = firstn n (elems s).
Proof.
  intros H. pose proof (len_le_cap s).
  rewrite slice_to_in_range by lia.
  eexists. split; [reflexivity |]. cbn [elems].
  unfold len in H. rewrite firstn_app.
  replace (n - length (elems s))%nat with 0%nat by lia.
  cbn [firstn]. apply app_nil_r.
Qed.

(** What [ComputeAndSetOrderType] does once the slice expression is in
    range: it accepts exactly when the low 64 bits of the prefix, read as a
    big-endian integer, are 0 or 5. *)
Lemma ComputeAndSetOrderType_low64 (order : Order) (prefix : slice) :
  slice_to (FromHex (MakerFeeAssetData (GetOrder order))) common.HashLength
    = Returns prefix ->
  let number := big.SetBytes (elems prefix) mod 2 ^ 64 in
  (number = 0 \/ number = 5 ->
     ComputeAndSetOrderType order = Returns (set_OrderType order number, None))
  /\ (number <> 0 -> number <> 5 ->
        ComputeAndSetOrderType order =
          Returns (order,
                   Some (unrecognizedOrderType (MakerFeeAssetData (GetOrder order))))).
Proof.
  intros Hs number. unfold ComputeAndSetOrderType. rewrite Hs. cbn [bind].
  assert (Hn : big.Uint64 (big.SetBytes (elems prefix)) = number).
  { unfold big.Uint64, number. f_equal. apply Z.abs_eq.
    unfold big.SetBytes.
    assert (G : forall l acc, 0 <= acc ->
              0 <= fold_left (fun a b => a * 256 + Z.of_N (Byte.to_N b)) l acc).
    { induction l as [| b l IH]; intros acc Hacc; cbn [fold_left]; [exact Hacc |].
      apply IH. lia. }
    apply G. lia. }
  rewrite Hn. split.
  - intros [E | E]; rewrite E; reflexivity.
  - intros N0 N5.
    destruct (Z.eqb_spec number 0); [contradiction |].
    destruct (Z.eqb_spec number 5); [contradiction |]. reflexivity.
Qed.

(** The classifier returns an error of one kind only, and leaves the order
    as it was when it does. *)
Lemma ComputeAndSetOrderType_cases (order order1 : Order) (err : option error) :
  ComputeAndSetOrderType order = Returns (order1, err) ->
  (err = Some (unrecognizedOrderType (MakerFeeAssetData (GetOrder order)))
   /\ order1 = order)
  \/ (err = None
      /\ (OrderType order1 = 0 \/ OrderType order1 = 5)
      /\ order1 = set_OrderType order (OrderType order1)).
Proof.
  unfold ComputeAndSetOrderType.
  destruct (slice_to _ _) as [prefix |]; cbn [bind]; [| discriminate].
  set (number := big.Uint64 (big.SetBytes (elems prefix))).
  destruct (Z.eqb_spec number 0) as [E0 | N0]; cbn [negb andb].
  - intros H; injection H as <- <-. right. cbn. rewrite E0. auto.
  - destruct (Z.eqb_spec number 5) as [E5 | N5]; cbn [negb].
    + intros H; injection H as <- <-. right. cbn. rewrite E5. auto.
    + intros H; injection H as <- <-. left. auto.
Qed.

(** C10 (as amended).  [ComputeAndSetOrderType] panics with a slice-bounds
    fault exactly when the decoded makerFeeAssetData has a capacity below 32
    bytes, and then [DoesValidationPass], which calls it first, panics with
    the same fault; no typed error is returned. *)
Theorem short_capacity_panics
    (order : Order) (isLong : bool) (market : DerivativeMarket) (currBlockTime : Z) :
  let data := FromHex (MakerFeeAssetData (GetOrder order)) in
  ((cap data < 32)%nat <->
     ComputeAndSetOrderType order = Panics SliceBoundsOutOfRange)
  /\ ((cap data < 32)%nat ->
        DoesValidationPass order isLong market currBlockTime
          = Panics SliceBoundsOutOfRange).
Proof.
  intros data.
  assert (Hp : (cap data < 32)%nat ->
               ComputeAndSetOrderType order = Panics SliceBoundsOutOfRange).
  { intros Hc. unfold ComputeAndSetOrderType. fold data.
    rewrite slice_to_out_of_range by exact Hc. reflexivity. }
  split; [split |].
  - exact Hp.
  - intros H. destruct (Nat.lt_ge_cases (cap data) 32) as [Hc | Hc]; [exact Hc |].
    exfalso. revert H. unfold ComputeAndSetOrderType. fold data.
    rewrite slice_to_in_range by exact Hc. cbn [bind].
    destruct (_ && _); discriminate.
  - intros Hc. unfold DoesValidationPass. rewrite (Hp Hc). reflexivity.
Qed.

(** ** The validation pipeline *)

Lemma ComputeAndSetOrderType_keeps_order (order order1 : Order) (err : option error) :
  ComputeAndSetOrderType order = Returns (order1, err) ->
  GetOrder order1 = GetOrder order.
Proof.
  intros H. destruct (ComputeAndSetOrderType_cases _ _ _ H) as [[_ ->] | [_ [_ ->]]];
    reflexivity.
Qed.

Lemma ComputeContractPriceMarginRequirement_value
    (order : Order) (market : DerivativeMarket) (price quantity ratio alpha : Z) :
  BigNum_Int (MakerAssetAmount (GetOrder order)) = Some price ->
  BigNum_Int (TakerAssetAmount (GetOrder order)) = Some quantity ->
  BigNum_Int (InitialMarginRatio market) = Some ratio ->
  ScalePermyriad quantity ratio = Returns alpha ->
  ComputeContractPriceMarginRequirement order market = Returns (alpha * price).
Proof.
  intros Hp Hq Hr Ha. unfold ComputeContractPriceMarginRequirement.
  rewrite (Int_parsed _ _ Hp), (Int_parsed _ _ Hq), (Int_parsed _ _ Hr).
  cbn [bind]. rewrite Ha. reflexivity.
Qed.

Lemma ComputeIndexPriceMarginRequirement_cases
    (order order' : Order) (isLong : bool) (market : DerivativeMarket) (req : Z) :
  ComputeIndexPriceMarginRequirement order isLong market = Returns (order', req) ->
  order' = set_IndexPriceRequirement order (big.String req).
Proof.
  unfold ComputeIndexPriceMarginRequirement.
  repeat match goal with
    | |- context [bind ?m _] =>
        destruct m; cbn [bind]; [| discriminate]
    end.
  destruct isLong;
    (match goal with
     | |- context [bind ?m _] => destruct m; cbn [bind]; [| discriminate]
     end);
    intros H; injection H as <- <-; reflexivity.
Qed.

(** One step of a run of [DoesValidationPass] that is known to return:
    split on the call or the test at the head. *)
Ltac run_step H :=
  cbn [bind] in H;
  match type of H with
  | Panics _ = Returns _ => discriminate H
  | context [bind ?m _] =>
      let E := fresh "E" in destruct m as [? | ?] eqn:E
  | context [match ?p with pair _ _ => _ end] =>
      let E := fresh "E" in destruct p eqn:E
  | context [if ?c then _ else _] =>
      let E := fresh "E" in destruct c eqn:E
  end.

(** C7.  Once the order type is recognised, [DoesValidationPass] rejects
    the order as expired exactly when [expirationTimeSeconds <= currentTime]:
    the boundary is inclusive, an order expiring at the current time is
    rejected. *)
Theorem expiry_boundary_inclusive
    (order order1 : Order) (isLong : bool) (market : DerivativeMarket)
    (currBlockTime expiration : Z) :
  ComputeAndSetOrderType order = Returns (order1, None) ->
  BigNum_Int (ExpirationTimeSeconds (GetOrder order)) = Some expiration ->
  ((exists order' e,
       DoesValidationPass order isLong market currBlockTime
         = Returns (order', Some e)
       /\ cause e = ErrOrderExpired)
   <-> expiration <= currBlockTime)
  /\ (expiration <= currBlockTime ->
        DoesValidationPass order isLong market currBlockTime
          = Returns (order1, Some (orderExpired expiration currBlockTime))).
Proof.
  intros Hc He.
  pose proof (ComputeAndSetOrderType_keeps_order _ _ _ Hc) as Hk.
  assert (Hexp : expiration <= currBlockTime ->
                 DoesValidationPass order isLong market currBlockTime
                 = Returns (order1, Some (orderExpired expiration currBlockTime))).
  { intros Hle. unfold DoesValidationPass. rewrite Hc. cbn [bind].
    rewrite Hk, (Int_parsed _ _ He). cbn [bind].
    destruct (Z.leb_spec expiration currBlockTime); [reflexivity | lia]. }
  split; [split |]; [| intros Hle; rewrite (Hexp Hle); eauto | exact Hexp].
  intros [order' [e [Hrun Hcause]]].
  destruct (Z.le_gt_cases expiration currBlockTime) as [Hle | Hgt]; [exact Hle |].
  exfalso. revert Hrun. unfold DoesValidationPass. rewrite Hc. cbn [bind].
  rewrite Hk, (Int_parsed _ _ He). cbn [bind].
  destruct (Z.leb_spec expiration currBlockTime); [lia |].
  intros Hrun.
  repeat run_step Hrun;
    first [ discriminate Hrun
          | injection Hrun as ? ?; subst; cbn in Hcause; discriminate Hcause ].
Qed.

Lemma index_price_is_not_contract_price (indexPrice indexPriceReq : string) (m r : Z) :
  overLeveragedIndexPriceLong indexPrice indexPriceReq
    <> overLeveragedContractPrice m r
  /\ overLeveragedIndexPriceShort indexPrice indexPriceReq
    <> overLeveragedContractPrice m r.
Proof.
  unfold overLeveragedIndexPriceLong, overLeveragedIndexPriceShort,
    overLeveragedContractPrice.
  split; intros H; injection H as H; cbn [append] in H; discriminate H.
Qed.


Ltac close_rejection Hk :=
  repeat split; intros;
  first
    [ assumption
    | reflexivity
    | discriminate
    | match goal with
      | H : _ \/ _ |- _ =>
          destruct H as [H | [? [? H]]];
          [ discriminate H
          | first
              [ discriminate H
              | exfalso;
                exact (proj1 (index_price_is_not_contract_price _ _ _ _) H)
              | exfalso;
                exact (proj2 (index_price_is_not_contract_price _ _ _ _) H) ] ]
      end
    | match goal with
      | H : forall m r, _ <> _ |- _ => exfalso; eapply H; reflexivity
      end
    | match goal with
      | E : ComputeIndexPriceMarginRequirement _ _ _ = Returns (?o, _)
        |- GetOrder ?o = _ =>
          rewrite (ComputeIndexPriceMarginRequirement_cases _ _ _ _ _ E);
          exact Hk
      end
    | eauto ].

(** C6 (as amended).  A rejection leaves on the order what the steps before
    it have memoized.  The signed order itself is never changed.  A
    rejection with UnrecognizedOrderType leaves the order as it was; a
    rejection as expired or at the contract-price step leaves it with
    [OrderType] set by the classifier; a rejection at the index-price step
    leaves it with [OrderType] and [IndexPriceRequirement] both set, as an
    accepted run does. *)
Theorem rejection_keeps_memoized_fields
    (order order' : Order) (isLong : bool) (market : DerivativeMarket)
    (currBlockTime : Z) :
  (forall e,
      DoesValidationPass order isLong market currBlockTime
        = Returns (order', Some e) ->
      GetOrder order' = GetOrder order
      /\ (cause e = ErrUnrecognizedOrderType -> order' = order)
      /\ (cause e = ErrOrderExpired \/ (exists m r, e = overLeveragedContractPrice m r) ->
            ComputeAndSetOrderType order = Returns (order', None))
      /\ (cause e = ErrOverLeveragedOrder ->
          (forall m r, e <> overLeveragedContractPrice m r) ->
            exists order1 req,
              ComputeAndSetOrderType order = Returns (order1, None)
              /\ ComputeIndexPriceMarginRequirement order1 isLong market
                   = Returns (order', req)))
  /\ (DoesValidationPass order isLong market currBlockTime
        = Returns (order', None) ->
      exists order1 req,
        ComputeAndSetOrderType order = Returns (order1, None)
        /\ ComputeIndexPriceMarginRequirement order1 isLong market
             = Returns (order', req)
        /\ (OrderType order' = 0 \/ OrderType order' = 5)
        /\ IndexPriceRequirement order' = big.String req).
Proof.
  split.
  - intros e Hrun. unfold DoesValidationPass in Hrun.
    destruct (ComputeAndSetOrderType order) as [[order1 err] |] eqn:Hc;
      cbn [bind] in Hrun; [| discriminate Hrun].
    pose proof (ComputeAndSetOrderType_keeps_order _ _ _ Hc) as Hk.
    destruct (ComputeAndSetOrderType_cases _ _ _ Hc) as [[-> Ho] | [-> _]].
    + injection Hrun as <- <-. subst order1.
      repeat split; intros; try reflexivity; try discriminate.
      destruct H as [H | [m [r H]]]; discriminate H.
    + repeat run_step Hrun;
        try discriminate Hrun;
        injection Hrun as <- <-;
        close_rejection Hk.
  - intros Hrun. unfold DoesValidationPass in Hrun.
    destruct (ComputeAndSetOrderType order) as [[order1 err] |] eqn:Hc;
      cbn [bind] in Hrun; [| discriminate Hrun].
    destruct (ComputeAndSetOrderType_cases _ _ _ Hc) as [[-> Ho] | [-> [Ht _]]];
      [discriminate Hrun |].
    repeat run_step Hrun; try discriminate Hrun.
    injection Hrun as <-.
    match goal with
    | E : ComputeIndexPriceMarginRequirement _ _ _ = Returns (_, ?req) |- _ =>
        pose proof (ComputeIndexPriceMarginRequirement_cases _ _ _ _ _ E) as Ho;
        exists order1, req; split; [reflexivity |]; split; [exact E |]
    end.
    rewrite Ho. cbn. auto.
Qed.

(** ** Identifiers *)

Lemma bytes_Equal_eq (a b : list byte) : bytes_Equal a b = true <-> a = b.
Proof.
  revert b. induction a as [| x a IH]; intros [| y b]; cbn [bytes_Equal];
    try (split; [discriminate | discriminate]); [tauto |].
  rewrite andb_true_iff, IH. split.
  - intros [Hxy ->]. apply byte_dec_bl in Hxy. subst. reflexivity.
  - intros H; injection H as -> ->. split; [apply byte_eqb_refl | reflexivity].
Qed.

(** The truncation of both asset-data fields: a slice longer than 32 bytes
    is cut to its first 32, a shorter one is kept. *)
Lemma truncate_to_HashLength (s : slice) :
  exists s',
    (if (common.HashLength <? len s)%nat
     then slice_to s common.HashLength else Returns s) = Returns s'
    /\ elems s' = firstn common.HashLength (elems s).
Proof.
  destruct (Nat.ltb_spec common.HashLength (len s)) as [Hl | Hl].
  - apply slice_to_visible. lia.
  - exists s. split; [reflexivity |]. symmetry. apply firstn_all2. exact Hl.
Qed.

Lemma BytesToHash_pads (b : list byte) :
  (length b <= common.HashLength)%nat ->
  common.BytesToHash b = repeat x00 (common.HashLength - length b) ++ b.
Proof.
  intros H. unfold common.BytesToHash, common.setBytes.
  replace (length b - common.HashLength)%nat with 0%nat by lia.
  reflexivity.
Qed.

(** C4 (as amended).  [GetDirectionMarketAndSubaccountID] truncates
    makerAssetData and takerAssetData to their leading 32 bytes when longer.
    For an order whose truncated takerAssetData equals 32 zero bytes it
    returns direction long and, as marketID, the truncated makerAssetData
    padded on the left with zeros to 32 bytes; for every other order it
    returns direction short and the truncated takerAssetData padded
    likewise. *)
Theorem direction_and_market_by_hash_prefix (m : BaseOrder) (fee : Z) :
  BigNum_Int (TakerFee m) = Some fee ->
  let mData := firstn 32 (elems (FromHex (MakerAssetData m))) in
  let tData := firstn 32 (elems (FromHex (TakerAssetData m))) in
  let subaccountID :=
    Keccak256Hash (HexToAddress (MakerAddress m)
                     ++ common.LeftPadBytes (big.Bytes fee) 32) in
  (tData = repeat x00 32 ->
     GetDirectionMarketAndSubaccountID m
       = Returns (true, repeat x00 (32 - length mData) ++ mData, subaccountID))
  /\ (tData <> repeat x00 32 ->
        GetDirectionMarketAndSubaccountID m
          = Returns (false, repeat x00 (32 - length tData) ++ tData, subaccountID)).
Proof.
  intros Hfee mData tData subaccountID.
  unfold GetDirectionMarketAndSubaccountID.
  destruct (truncate_to_HashLength (FromHex (MakerAssetData m))) as [ms [-> Hms]].
  destruct (truncate_to_HashLength (FromHex (TakerAssetData m))) as [ts [-> Hts]].
  cbn [bind]. unfold ComputeSubaccountID. rewrite (Int_parsed _ _ Hfee). cbn [bind].
  fold subaccountID.
  change common.HashLength with 32%nat in Hms, Hts.
  rewrite Hms, Hts. fold mData. fold tData.
  assert (Hlm : (length mData <= common.HashLength)%nat)
    by (apply firstn_le_length).
  assert (Hlt : (length tData <= common.HashLength)%nat)
    by (apply firstn_le_length).
  rewrite (BytesToHash_pads _ Hlm), (BytesToHash_pads _ Hlt).
  change common.HashLength with 32%nat.
  change common.zeroHash with (repeat x00 32).
  split; intros Ht.
  - rewrite (proj2 (bytes_Equal_eq _ _) Ht). reflexivity.
  - destruct (bytes_Equal tData (repeat x00 32)) eqn:E; [| reflexivity].
    apply bytes_Equal_eq in E. contradiction.
Qed.

End Exchange.

(** With a decoder that hands out no spare capacity, fewer than 32 decoded
    bytes are enough for the fault. *)
Lemma exact_decoder_short_data_panics (order : Order) :
  (len (FromHex_exact (MakerFeeAssetData (GetOrder order))) < 32)%nat ->
  ComputeAndSetOrderType FromHex_exact order = Panics SliceBoundsOutOfRange.
Proof.
  intros H. unfold ComputeAndSetOrderType.
  rewrite slice_to_out_of_range; [reflexivity |].
  unfold cap, len, FromHex_exact in *. cbn [elems spare length] in *.
  change common.HashLength with 32%nat. lia.
Qed.

(** * The statements at the sample data *)

(** At margin 150, price 100, quantity 10 and a ratio of 1000 the long
    requirement is 95: -850 = 95 * (-9) + 5. *)
Lemma ComputeIndexPriceMarginRequirement_sample :
  ComputeIndexPriceMarginRequirement sampleOrder true sampleMarket
    = Returns (set_IndexPriceRequirement sampleOrder "95", 95).
Proof.
  destruct (ComputeIndexPriceMarginRequirement_euclidean
              sampleOrder true sampleMarket 100 10 150 1000 1
              eq_refl eq_refl eq_refl eq_refl eq_refl ltac:(lia))
    as [req [Hrun Hbound]].
  assert (req = 95) as -> by lia.
  exact Hrun.
Defined.

(** The quotient truncated toward zero would be 94; the code returns 95. *)
Lemma truncation_is_not_what_Div_does :
  Z.quot (150 - 100 * 10) (1 - 10) = 94
  /\ ComputeIndexPriceMarginRequirement sampleOrder true sampleMarket
       = Returns (set_IndexPriceRequirement sampleOrder "95", 95)
  /\ ComputeIndexPriceMarginRequirement sampleOrder true sampleMarket
       <> Returns (set_IndexPriceRequirement sampleOrder (big.String 94), 94).
Proof.
  split; [reflexivity |]. split; [reflexivity |].
  vm_compute. discriminate.
Qed.

Lemma zero_denominator_panics_sample :
  ComputeIndexPriceMarginRequirement sampleOrder true fullMarginMarket
    = Panics DivisionByZero
  /\ ComputeOrderMarginHold emptyOrder 10 15 = Panics DivisionByZero.
Proof.
  split.
  - apply (proj1 zero_denominator_panics
             sampleOrder true fullMarginMarket 100 10 150 10000 10);
      reflexivity.
  - apply (proj2 zero_denominator_panics emptyOrder 10 15 150); reflexivity.
Defined.

(** With a zero denominator no value comes back to the caller, neither a
    result nor an error. *)
Lemma division_by_zero_is_not_returned :
  ~ returned (ComputeIndexPriceMarginRequirement sampleOrder true fullMarginMarket)
  /\ ~ returned (ComputeOrderMarginHold emptyOrder 10 15).
Proof.
  split; intros [a H]; vm_compute in H; discriminate H.
Qed.

Lemma ScalePermyriad_rounds_down_sample :
  ScalePermyriad 10 1000 = Returns (Z.quot (10 * 1000) 10000).
Proof.
  destruct (ScalePermyriad_rounds_down 10 1000) as [r [Hrun [_ [_ Hq]]]].
  rewrite Hrun, Hq; [reflexivity | lia].
Defined.

(** A negative product is rounded down, not toward zero. *)
Lemma ScalePermyriad_negative_not_truncated :
  ScalePermyriad (-1) 1 = Returns (-1)
  /\ Z.quot (-1 * 1) 10000 = 0
  /\ ScalePermyriad (-1) 1 <> Returns (Z.quot (-1 * 1) 10000).
Proof.
  split; [reflexivity |]. split; [reflexivity |]. vm_compute. discriminate.
Qed.

Lemma direction_and_market_sample :
  GetDirectionMarketAndSubaccountID FromHex_exact sampleHash (GetOrder sampleOrder)
    = Returns (true,
               common.BytesToHash (elems (FromHex_exact (MakerAssetData (GetOrder sampleOrder)))),
               sampleHash (HexToAddress FromHex_exact (MakerAddress (GetOrder sampleOrder))
                             ++ repeat x00 32)).
Proof.
  apply (proj1 (direction_and_market_by_hash_prefix
                  FromHex_exact sampleHash (GetOrder sampleOrder) 0 eq_refl)).
  reflexivity.
Defined.

(** Twenty zero bytes of takerAssetData do not make a long order: the
    comparison is with 32 zero bytes. *)
Lemma twenty_zero_bytes_are_short :
  firstn 20 (elems (FromHex_exact (TakerAssetData twentyZeroTaker))) = repeat x00 20
  /\ GetDirectionMarketAndSubaccountID FromHex_exact sampleHash twentyZeroTaker
     = Returns (false,
                repeat x00 32,
                sampleHash (HexToAddress FromHex_exact (MakerAddress twentyZeroTaker)
                              ++ repeat x00 32)).
Proof.
  split; vm_compute; reflexivity.
Qed.

(** C5.  At the 32-byte word 2^64, which is neither 0 nor 5, the classifier
    does not fail: it reads the low 64 bits, accepts, and stores order
    type 0. *)
Theorem ComputeAndSetOrderType_accepts_2p64 :
  big.SetBytes (elems (FromHex_exact (MakerFeeAssetData (GetOrder wrappedOrder))))
    = 2 ^ 64
  /\ ComputeAndSetOrderType FromHex_exact wrappedOrder
     = Returns (set_OrderType wrappedOrder 0, None).
Proof.
  split; vm_compute; reflexivity.
Qed.

Lemma rejection_keeps_memoized_fields_sample :
  ComputeAndSetOrderType FromHex_exact sampleOrder
    = Returns (set_OrderType sampleOrder 5, None).
Proof.
  apply (proj1 (rejection_keeps_memoized_fields
                  FromHex_exact sampleOrder (set_OrderType sampleOrder 5)
                  true sampleMarket 2000)
           (orderExpired 2000 2000) eq_refl).
  left. reflexivity.
Defined.

(** An order rejected as expired leaves with its order type written, and
    an order rejected at the index-price step with both fields written. *)
Lemma rejected_order_is_modified :
  DoesValidationPass FromHex_exact sampleOrder true sampleMarket 2000
    = Returns (set_OrderType sampleOrder 5, Some (orderExpired 2000 2000))
  /\ set_OrderType sampleOrder 5 <> sampleOrder
  /\ DoesValidationPass FromHex_exact sampleOrder true lowIndexMarket 1000
     = Returns (set_IndexPriceRequirement (set_OrderType sampleOrder 5) "95",
                Some (overLeveragedIndexPriceLong "90" "95"))
  /\ set_IndexPriceRequirement (set_OrderType sampleOrder 5) "95" <> sampleOrder.
Proof.
  repeat split; try (vm_compute; reflexivity); vm_compute; discriminate.
Qed.

Lemma expiry_boundary_sample :
  DoesValidationPass FromHex_exact sampleOrder true sampleMarket 2000
    = Returns (set_OrderType sampleOrder 5, Some (orderExpired 2000 2000)).
Proof.
  apply (proj2 (expiry_boundary_inclusive
                  FromHex_exact sampleOrder (set_OrderType sampleOrder 5)
                  true sampleMarket 2000 2000 eq_refl eq_refl)).
  lia.
Defined.


Lemma sampleTags_distinct : distinct_tags sampleTags.
Proof.
  unfold distinct_tags, sampleTags. cbn.
  repeat (constructor; [cbn; intuition discriminate |]). constructor.
Defined.

Lemma isValidSignature_sample :
  isValidSignature FromHex_exact sampleTags signature66 = Returns true.
Proof.
  apply (proj1 (proj2 (isValidSignature_by_tag
                  FromHex_exact sampleTags signature66 (repeat x11 65) x02
                  sampleTags_distinct eq_refl))).
  left. reflexivity.
Defined.

Lemma short_capacity_panics_sample :
  DoesValidationPass FromHex_exact shortDataOrder true sampleMarket 1000
    = Panics SliceBoundsOutOfRange.
Proof.
  apply (proj2 (short_capacity_panics
                  FromHex_exact shortDataOrder true sampleMarket 1000)).
  vm_compute. lia.
Defined.

(** Twenty decoded bytes in a backing array of forty: the slice expression
    is in range, reads on past the decoded bytes, and the classifier returns
    its typed error. *)
Lemma short_data_with_capacity_is_rejected :
  (len (FromHex_inplace (MakerFeeAssetData (GetOrder shortDataOrder))) < 32)%nat
  /\ ComputeAndSetOrderType FromHex_inplace shortDataOrder
     = Returns (shortDataOrder, Some (unrecognizedOrderType short20))
  /\ ComputeAndSetOrderType FromHex_inplace shortDataOrder
     <> Panics SliceBoundsOutOfRange.
Proof.
  split; [vm_compute; lia |].
  split; [vm_compute; reflexivity |].
  vm_compute. discriminate.
Qed.

(** * Further properties of the code *)

(** ** Scaling *)

(** X1.  Scaling by the base 10000 returns the amount itself, negative
    amounts included, and scaling by 0 returns 0. *)
Theorem ScalePermyriad_base_and_zero (amount : Z) :
  ScalePermyriad amount 10000 = Returns amount
  /\ ScalePermyriad amount 0 = Returns 0.
Proof.
  rewrite !ScalePermyriad_floor. split; f_equal.
  - apply Z.div_mul. lia.
  - rewrite Z.mul_0_r. reflexivity.
Qed.

(** X2.  For a permyriad that is not negative, scaling is monotone in the
    amount; for an amount that is not negative and a permyriad between 0 and
    10000 the result lies between 0 and the amount. *)
Theorem ScalePermyriad_monotone_bounded (a b permyriad : Z) :
  0 <= permyriad ->
  a <= b ->
  exists ra rb,
    ScalePermyriad a permyriad = Returns ra
    /\ ScalePermyriad b permyriad = Returns rb
    /\ ra <= rb
    /\ (0 <= a -> permyriad <= 10000 -> 0 <= ra <= a).
Proof.
  intros Hp Hab.
  exists (a * permyriad / 10000), (b * permyriad / 10000).
  rewrite !ScalePermyriad_floor. repeat split.
  - apply Z.div_le_mono; nia.
  - apply Z.div_pos; nia.
  - apply Z.div_le_upper_bound; nia.
Qed.

(** X3.  [IncrementByScaledPermyriad] never fails and adds the scaled
    amount, rounded down, to the amount: a permyriad of 0 leaves the amount
    as it is, and an amount and a permyriad that are not negative never
    give less than the amount. *)
Theorem IncrementByScaledPermyriad_adds (amount permyriad : Z) :
  IncrementByScaledPermyriad amount permyriad
    = Returns (amount + amount * permyriad / 10000)
  /\ IncrementByScaledPermyriad amount 0 = Returns amount
  /\ (0 <= amount -> 0 <= permyriad ->
      amount <= amount + amount * permyriad / 10000).
Proof.
  unfold IncrementByScaledPermyriad. rewrite !ScalePermyriad_floor. cbn [bind].
  repeat split.
  - rewrite Z.mul_0_r. cbn. f_equal. lia.
  - intros Ha Hp.
    assert (0 <= amount * permyriad / 10000) by (apply Z.div_pos; nia). lia.
Qed.

(** ** The margin hold *)

Lemma ComputeOrderMarginHold_unfold
    (o : Order) (remainingQuantity makerTxFeePermyriad margin quantity : Z) :
  BigNum_Int (MakerFee (GetOrder o)) = Some margin ->
  BigNum_Int (TakerAssetAmount (GetOrder o)) = Some quantity ->
  ComputeOrderMarginHold o remainingQuantity makerTxFeePermyriad
    = big.Div ((margin + margin * makerTxFeePermyriad / 10000) * remainingQuantity)
              quantity.
Proof.
  intros Hm Hq. unfold ComputeOrderMarginHold, IncrementByScaledPermyriad.
  rewrite (Int_parsed _ _ Hm), (Int_parsed _ _ Hq). cbn [bind].
  rewrite ScalePermyriad_floor. reflexivity.
Qed.

Lemma Div_exact (x y : Z) : y <> 0 -> big.Div (x * y) y = Returns x.
Proof.
  intros Hy. destruct (Div_euclidean (x * y) y Hy) as [q [Hq Hb]].
  rewrite Hq. f_equal.
  assert (Hd : 0 <= (x - q) * y < Z.abs y) by lia.
  destruct (Z.lt_trichotomy (x - q) 0) as [Hneg | [Hz | Hpos]]; [| lia |];
    exfalso; nia.
Qed.

(** X4.  For an order whose margin and quantity parse and whose quantity is
    not zero, the hold for the whole quantity is the margin incremented by
    the fee, with no rounding, and the hold for a remaining quantity of 0
    is 0. *)
Theorem ComputeOrderMarginHold_whole_and_none
    (o : Order) (makerTxFeePermyriad margin quantity : Z) :
  BigNum_Int (MakerFee (GetOrder o)) = Some margin ->
  BigNum_Int (TakerAssetAmount (GetOrder o)) = Some quantity ->
  quantity <> 0 ->
  ComputeOrderMarginHold o quantity makerTxFeePermyriad
    = IncrementByScaledPermyriad margin makerTxFeePermyriad
  /\ ComputeOrderMarginHold o 0 makerTxFeePermyriad = Returns 0.
Proof.
  intros Hm Hq Hnz.
  rewrite !(ComputeOrderMarginHold_unfold _ _ _ _ _ Hm Hq).
  split.
  - rewrite (Div_exact _ _ Hnz).
    unfold IncrementByScaledPermyriad. rewrite ScalePermyriad_floor. reflexivity.
  - rewrite Z.mul_0_r. change 0 with (0 * quantity) at 1.
    apply Div_exact. exact Hnz.
Qed.


(** ** The contract-price requirement *)

(** X6.  The contract-price requirement rounds the scaled quantity down
    before it multiplies by the price: for a price that is not negative it
    never exceeds [quantity * ratio * price / 10000], and it is that value
    exactly when [quantity * ratio] is a multiple of 10000. *)
Theorem ComputeContractPriceMarginRequirement_rounds_first
    (order : Order) (market : DerivativeMarket) (price quantity ratio : Z) :
  BigNum_Int (MakerAssetAmount (GetOrder order)) = Some price ->
  BigNum_Int (TakerAssetAmount (GetOrder order)) = Some quantity ->
  BigNum_Int (InitialMarginRatio market) = Some ratio ->
  0 <= price ->
  exists requirement,
    ComputeContractPriceMarginRequirement order market = Returns requirement
    /\ requirement = quantity * ratio / 10000 * price
    /\ requirement <= quantity * ratio * price / 10000
    /\ ((quantity * ratio) mod 10000 = 0 ->
        requirement = quantity * ratio * price / 10000).
Proof.
  intros Hp Hq Hr Hprice.
  exists (quantity * ratio / 10000 * price).
  split.
  - apply (ComputeContractPriceMarginRequirement_value _ _ price quantity ratio);
      try assumption. apply ScalePermyriad_floor.
  - split; [reflexivity |].
    pose proof (Z.div_mod (quantity * ratio) 10000 ltac:(lia)) as Hdm.
    pose proof (Z.mod_pos_bound (quantity * ratio) 10000 ltac:(lia)) as Hb.
    split.
    + apply Z.div_le_lower_bound; [lia |]. nia.
    + intros Hz. apply Z.div_unique_exact; [lia |]. nia.
Qed.

(** ** The pipeline, step by step *)

Lemma Int_returns (n : string) (z : Z) : Int n = Returns z -> BigNum_Int n = Some z.
Proof.
  unfold Int. destruct (BigNum_Int n); intros H; [injection H as -> | discriminate H].
  reflexivity.
Qed.

Ltac split_head :=
  cbn [bind];
  match goal with
  | |- context [bind ?m _] => destruct m as [? | ?]
  | |- context [match ?p with pair _ _ => _ end] => destruct p
  | |- context [if ?c then _ else _] => destruct c
  end.

Section Pipeline.

Variable FromHex : string -> slice.

Lemma ComputeAndSetOrderType_same_base (o o' : Order) :
  GetOrder o' = GetOrder o ->
  ComputeAndSetOrderType FromHex o' =
    match ComputeAndSetOrderType FromHex o with
    | Returns (_, Some e) => Returns (o', Some e)
    | Returns (o1, None) => Returns (set_OrderType o' (OrderType o1), None)
    | Panics f => Panics f
    end.
Proof.
  intros Hb. unfold ComputeAndSetOrderType. rewrite Hb.
  destruct (slice_to _ _); cbn [bind]; [| reflexivity].
  destruct (_ && _); reflexivity.
Qed.

Lemma ComputeContractPriceMarginRequirement_same_base
    (o o' : Order) (market : DerivativeMarket) :
  GetOrder o' = GetOrder o ->
  ComputeContractPriceMarginRequirement o' market
    = ComputeContractPriceMarginRequirement o market.
Proof.
  intros Hb. unfold ComputeContractPriceMarginRequirement. rewrite Hb. reflexivity.
Qed.

Lemma ComputeIndexPriceMarginRequirement_same_base
    (o o' : Order) (isLong : bool) (market : DerivativeMarket) :
  GetOrder o' = GetOrder o ->
  ComputeIndexPriceMarginRequirement o' isLong market =
    match ComputeIndexPriceMarginRequirement o isLong market with
    | Returns (_, req) =>
        Returns (set_IndexPriceRequirement o' (big.String req), req)
    | Panics f => Panics f
    end.
Proof.
  intros Hb. unfold ComputeIndexPriceMarginRequirement. rewrite Hb.
  repeat (split_head; [| reflexivity]).
  destruct isLong; (split_head; [| reflexivity]); reflexivity.
Qed.

Lemma DoesValidationPass_base_only
    (o o' : Order) (isLong : bool) (market : DerivativeMarket) (currBlockTime : Z) :
  GetOrder o' = GetOrder o ->
  match DoesValidationPass FromHex o isLong market currBlockTime,
        DoesValidationPass FromHex o' isLong market currBlockTime with
  | Panics f, Panics f' => f = f'
  | Returns (r, err), Returns (r', err') =>
      err = err'
      /\ GetOrder r = GetOrder o /\ GetOrder r' = GetOrder o'
      /\ (OrderType r' = OrderType r
          \/ (OrderType r = OrderType o /\ OrderType r' = OrderType o'))
      /\ (IndexPriceRequirement r' = IndexPriceRequirement r
          \/ (IndexPriceRequirement r = IndexPriceRequirement o
              /\ IndexPriceRequirement r' = IndexPriceRequirement o'))
  | _, _ => False
  end.
Proof.
  intros Hb. unfold DoesValidationPass.
  rewrite (ComputeAndSetOrderType_same_base o o' Hb).
  destruct (ComputeAndSetOrderType FromHex o) as [[o1 err] |] eqn:Hc;
    cbn [bind]; [| reflexivity].
  destruct (ComputeAndSetOrderType_cases _ _ _ _ Hc) as [[-> ->] | [-> [_ Ho1]]].
  - cbn. rewrite Hb. auto 10.
  - cbn [bind].
    set (n := OrderType o1) in *.
    assert (Hk : GetOrder o1 = GetOrder o) by (rewrite Ho1; reflexivity).
    assert (Hk' : GetOrder (set_OrderType o' n) = GetOrder o1)
      by (rewrite Hk; exact Hb).
    rewrite (ComputeContractPriceMarginRequirement_same_base o1 _ market Hk').
    rewrite (ComputeIndexPriceMarginRequirement_same_base o1 _ isLong market Hk').
    rewrite Hk'.
    assert (Ht : OrderType o1 = n) by reflexivity.
    clearbody n.
    repeat (cbn [bind];
            match goal with
            | |- context [ComputeIndexPriceMarginRequirement ?a ?b ?c] =>
                destruct (ComputeIndexPriceMarginRequirement a b c) as [[? ?] | ?] eqn:?
            | |- context [ComputeContractPriceMarginRequirement ?a ?b] =>
                destruct (ComputeContractPriceMarginRequirement a b)
            | |- context [Int ?s] => destruct (Int s)
            | |- context [if ?c then _ else _] => destruct c
            end; try reflexivity);
      repeat match goal with
        | E : ComputeIndexPriceMarginRequirement _ _ _ = Returns _ |- _ =>
            apply ComputeIndexPriceMarginRequirement_cases in E
        end;
      subst; cbn; rewrite ?Hb; auto 10.
Qed.

(** X7.  The verdict does not depend on what an earlier run memoized: two
    orders that carry the same signed order panic with the same fault or
    return the same error, neither run changes the signed order, and each
    of the two fields is either written with the same value by both runs or
    left alone by both. *)
Theorem DoesValidationPass_same_signed_order
    (o o' : Order) (isLong : bool) (market : DerivativeMarket) (currBlockTime : Z) :
  GetOrder o' = GetOrder o ->
  match DoesValidationPass FromHex o isLong market currBlockTime,
        DoesValidationPass FromHex o' isLong market currBlockTime with
  | Panics f, Panics f' => f = f'
  | Returns (r, err), Returns (r', err') =>
      err = err'
      /\ GetOrder r = GetOrder o /\ GetOrder r' = GetOrder o'
      /\ (OrderType r' = OrderType r
          \/ (OrderType r = OrderType o /\ OrderType r' = OrderType o'))
      /\ (IndexPriceRequirement r' = IndexPriceRequirement r
          \/ (IndexPriceRequirement r = IndexPriceRequirement o
              /\ IndexPriceRequirement r' = IndexPriceRequirement o'))
  | _, _ => False
  end.
Proof. apply DoesValidationPass_base_only. Qed.

(** X8.  Validation is idempotent: a second run on the order that a run
    has left behind returns the same error and leaves the same order. *)
Theorem DoesValidationPass_idempotent
    (o r : Order) (err : option error)
    (isLong : bool) (market : DerivativeMarket) (currBlockTime : Z) :
  DoesValidationPass FromHex o isLong market currBlockTime = Returns (r, err) ->
  DoesValidationPass FromHex r isLong market currBlockTime = Returns (r, err).
Proof.
  intros Hrun.
  pose proof (DoesValidationPass_base_only o o isLong market currBlockTime eq_refl)
    as Hself.
  rewrite Hrun in Hself. destruct Hself as [_ [Hbase _]].
  pose proof (DoesValidationPass_base_only o r isLong market currBlockTime Hbase)
    as Hre.
  rewrite Hrun in Hre.
  destruct (DoesValidationPass FromHex r isLong market currBlockTime)
    as [[r' err'] |]; [| contradiction].
  destruct Hre as [-> [_ [Hg [Ht Hi]]]].
  assert (Ht' : OrderType r' = OrderType r) by (destruct Ht as [? | [_ ?]]; assumption).
  assert (Hi' : IndexPriceRequirement r' = IndexPriceRequirement r)
    by (destruct Hi as [? | [_ ?]]; assumption).
  destruct r, r'; cbn in *; subst. reflexivity.
Qed.

(** X9.  The index-price step.  For an order that has passed the
    classifier, the expiry test and the contract-price test, and whose
    index-price requirement is computed, a long order is rejected exactly
    when the index price is below the requirement and a short order exactly
    when it is above; at equality both are accepted.  Either way the order
    comes back with the requirement memoized. *)
Theorem index_price_step_decides
    (order order1 order2 : Order) (isLong : bool) (market : DerivativeMarket)
    (currBlockTime expiration margin requirement indexPrice req : Z) :
  ComputeAndSetOrderType FromHex order = Returns (order1, None) ->
  BigNum_Int (ExpirationTimeSeconds (GetOrder order)) = Some expiration ->
  currBlockTime < expiration ->
  BigNum_Int (MakerFee (GetOrder order)) = Some margin ->
  ComputeContractPriceMarginRequirement order market = Returns requirement ->
  requirement <= margin ->
  ComputeIndexPriceMarginRequirement order1 isLong market = Returns (order2, req) ->
  BigNum_Int (IndexPrice market) = Some indexPrice ->
  IndexPriceRequirement order2 = big.String req
  /\ DoesValidationPass FromHex order isLong market currBlockTime =
       Returns (order2,
                if isLong then
                  if indexPrice <? req
                  then Some (overLeveragedIndexPriceLong
                               (IndexPrice market) (big.String req))
                  else None
                else
                  if req <? indexPrice
                  then Some (overLeveragedIndexPriceShort
                               (IndexPrice market) (big.String req))
                  else None).
Proof.
  intros Hc He Ht Hm Hreq Hle Hip Hi.
  pose proof (ComputeAndSetOrderType_keeps_order _ _ _ _ Hc) as Hk.
  pose proof (ComputeIndexPriceMarginRequirement_cases _ _ _ _ _ Hip) as Ho2.
  assert (Hs : IndexPriceRequirement order2 = big.String req)
    by (rewrite Ho2; reflexivity).
  split; [exact Hs |].
  unfold DoesValidationPass. rewrite Hc. cbn [bind].
  rewrite Hk, (Int_parsed _ _ He). cbn [bind].
  destruct (Z.leb_spec expiration currBlockTime); [lia |].
  rewrite (Int_parsed _ _ Hm). cbn [bind].
  rewrite (ComputeContractPriceMarginRequirement_same_base order order1 market Hk),
    Hreq. cbn [bind].
  destruct (Z.ltb_spec margin requirement); [lia |].
  rewrite Hip. cbn [bind]. rewrite (Int_parsed _ _ Hi). cbn [bind].
  rewrite Hs, Z.gtb_ltb.
  destruct isLong; cbn [andb negb];
    [destruct (indexPrice <? req) | destruct (req <? indexPrice)]; reflexivity.
Qed.

Lemma Div_returns (x y q : Z) :
  big.Div x y = Returns q -> y <> 0 /\ 0 <= x - q * y < Z.abs y.
Proof.
  intros H. destruct (Z.eq_dec y 0) as [-> | Hy].
  - rewrite Div_by_zero in H. discriminate H.
  - split; [exact Hy |].
    destruct (Div_euclidean x y Hy) as [q' [Hq' Hb]].
    rewrite Hq' in H. injection H as <-. exact Hb.
Qed.

Lemma ComputeContractPriceMarginRequirement_returns
    (o : Order) (market : DerivativeMarket) (requirement : Z) :
  ComputeContractPriceMarginRequirement o market = Returns requirement ->
  exists price quantity ratio,
    BigNum_Int (MakerAssetAmount (GetOrder o)) = Some price
    /\ BigNum_Int (TakerAssetAmount (GetOrder o)) = Some quantity
    /\ BigNum_Int (InitialMarginRatio market) = Some ratio
    /\ requirement = quantity * ratio / 10000 * price.
Proof.
  unfold ComputeContractPriceMarginRequirement.
  destruct (Int (MakerAssetAmount _)) as [price |] eqn:Ep; cbn [bind]; [| discriminate].
  destruct (Int (TakerAssetAmount _)) as [quantity |] eqn:Eq; cbn [bind]; [| discriminate].
  destruct (Int (InitialMarginRatio _)) as [ratio |] eqn:Er; cbn [bind]; [| discriminate].
  rewrite ScalePermyriad_floor. cbn [bind]. intros H; injection H as <-.
  exists price, quantity, ratio.
  auto using Int_returns.
Qed.

Lemma ComputeIndexPriceMarginRequirement_returns
    (o o' : Order) (isLong : bool) (market : DerivativeMarket) (req : Z) :
  ComputeIndexPriceMarginRequirement o isLong market = Returns (o', req) ->
  exists price quantity margin ratio,
    BigNum_Int (MakerAssetAmount (GetOrder o)) = Some price
    /\ BigNum_Int (TakerAssetAmount (GetOrder o)) = Some quantity
    /\ BigNum_Int (MakerFee (GetOrder o)) = Some margin
    /\ BigNum_Int (InitialMarginRatio market) = Some ratio
    /\ o' = set_IndexPriceRequirement o (big.String req)
    /\ let num := indexPriceNumerator isLong margin price quantity in
       let denom :=
         indexPriceDenominator isLong (quantity * ratio / 10000) quantity in
       denom <> 0 /\ 0 <= num - req * denom < Z.abs denom.
Proof.
  intros H.
  pose proof (ComputeIndexPriceMarginRequirement_cases _ _ _ _ _ H) as Ho.
  revert H. unfold ComputeIndexPriceMarginRequirement.
  destruct (Int (MakerAssetAmount _)) as [price |] eqn:Ep; cbn [bind]; [| discriminate].
  destruct (Int (TakerAssetAmount _)) as [quantity |] eqn:Eq; cbn [bind]; [| discriminate].
  destruct (Int (MakerFee _)) as [margin |] eqn:Em; cbn [bind]; [| discriminate].
  destruct (Int (InitialMarginRatio _)) as [ratio |] eqn:Er; cbn [bind]; [| discriminate].
  rewrite ScalePermyriad_floor. cbn [bind]. intros H.
  exists price, quantity, margin, ratio.
  do 4 (split; [solve [auto using Int_returns] |]).
  split; [exact Ho |].
  unfold indexPriceNumerator, indexPriceDenominator.
  destruct isLong;
    (match type of H with
     | context [big.Div ?x ?y] =>
         destruct (big.Div x y) as [q |] eqn:Ed; cbn [bind] in H; [| discriminate H];
         injection H as _ <-; exact (Div_returns _ _ _ Ed)
     end).
Qed.

Ltac step_in H :=
  cbn [bind] in H;
  match type of H with
  | Panics _ = Returns _ => discriminate H
  | context [bind ?m _] =>
      let E := fresh "E" in destruct m as [? | ?] eqn:E
  | context [match ?p with pair _ _ => _ end] =>
      let E := fresh "E" in destruct p eqn:E
  | context [if ?c then _ else _] =>
      let E := fresh "E" in destruct c eqn:E
  end.

(** X10.  What acceptance means.  An order that [DoesValidationPass]
    accepts has amounts that all parse, expires after the block time, has a
    margin of at least the contract-price requirement, and an index price
    on the right side of its index-price requirement, which is the Euclidean
    quotient of a division by a denominator that is not zero; it comes back
    with order type 0 or 5 and that requirement's decimal string memoized. *)
Theorem accepted_order_meets_every_requirement
    (order order' : Order) (isLong : bool) (market : DerivativeMarket)
    (currBlockTime : Z) :
  DoesValidationPass FromHex order isLong market currBlockTime
    = Returns (order', None) ->
  exists expiration margin price quantity ratio indexPrice req,
    BigNum_Int (ExpirationTimeSeconds (GetOrder order)) = Some expiration
    /\ BigNum_Int (MakerFee (GetOrder order)) = Some margin
    /\ BigNum_Int (MakerAssetAmount (GetOrder order)) = Some price
    /\ BigNum_Int (TakerAssetAmount (GetOrder order)) = Some quantity
    /\ BigNum_Int (InitialMarginRatio market) = Some ratio
    /\ BigNum_Int (IndexPrice market) = Some indexPrice
    /\ currBlockTime < expiration
    /\ quantity * ratio / 10000 * price <= margin
    /\ (if isLong then req <= indexPrice else indexPrice <= req)
    /\ (let num := indexPriceNumerator isLong margin price quantity in
        let denom :=
          indexPriceDenominator isLong (quantity * ratio / 10000) quantity in
        denom <> 0 /\ 0 <= num - req * denom < Z.abs denom)
    /\ order' = mkOrder (GetOrder order) (OrderType order') (big.String req)
    /\ (OrderType order' = 0 \/ OrderType order' = 5).
Proof.
  intros Hrun. unfold DoesValidationPass in Hrun.
  destruct (ComputeAndSetOrderType FromHex order) as [[order1 err] |] eqn:Hc;
    cbn [bind] in Hrun; [| discriminate Hrun].
  destruct (ComputeAndSetOrderType_cases _ _ _ _ Hc) as [[-> _] | [-> [Ht Ho1]]];
    [discriminate Hrun |].
  assert (Hk : GetOrder order1 = GetOrder order) by (rewrite Ho1; reflexivity).
  rewrite Hk in Hrun.
  repeat step_in Hrun; try discriminate Hrun.
  injection Hrun as <-.
  match goal with
  | E : ComputeContractPriceMarginRequirement _ _ = Returns _ |- _ =>
      destruct (ComputeContractPriceMarginRequirement_returns _ _ _ E)
        as [price [quantity [ratio [Hp [Hq [Hr ->]]]]]]
  end.
  match goal with
  | E : ComputeIndexPriceMarginRequirement _ _ _ = Returns _ |- _ =>
      destruct (ComputeIndexPriceMarginRequirement_returns _ _ _ _ _ E)
        as [price' [quantity' [margin' [ratio' [Hp' [Hq' [Hm' [Hr' [Ho Hdiv]]]]]]]]]
  end.
  rewrite Hk in *.
  repeat match goal with
    | E : Int _ = Returns _ |- _ => apply Int_returns in E
    end.
  repeat match goal with
    | H1 : BigNum_Int ?s = Some ?a, H2 : BigNum_Int ?s = Some ?b |- _ =>
        assert (b = a) by congruence; subst b; clear H2
    end.
  match goal with
  | E : BigNum_Int (ExpirationTimeSeconds _) = Some ?e,
    M : BigNum_Int (MakerFee _) = Some ?m,
    I : BigNum_Int (IndexPrice _) = Some ?i,
    C : ComputeIndexPriceMarginRequirement _ _ _ = Returns (_, ?q) |- _ =>
      exists e, m, price, quantity, ratio, i, q
  end.
  repeat match goal with
    | E : (_ <=? _) = false |- _ => apply Z.leb_gt in E
    | E : (_ <? _) = false |- _ => apply Z.ltb_ge in E
    end.
  repeat (split; [first [assumption | lia] |]).
  split.
  - destruct isLong; cbn [andb negb] in *;
      repeat match goal with
        | E : (_ <? _) = false |- _ => apply Z.ltb_ge in E
        | E : (_ >? _) = false |- _ => rewrite Z.gtb_ltb in E; apply Z.ltb_ge in E
        end; lia.
  - split; [exact Hdiv |]. split.
    + rewrite Ho, Ho1. cbn. rewrite Ho1 in Hk. cbn in Hk. reflexivity.
    + rewrite Ho. cbn. exact Ht.
Qed.

(** X11.  The pipeline can panic.  An order that passes the classifier, the
    expiry test and the contract-price test, and whose scaled quantity
    equals its quantity (long) or the opposite of its quantity (short),
    takes [DoesValidationPass] into the division by zero of the index-price
    step: no verdict is returned. *)
Theorem DoesValidationPass_division_by_zero
    (order order1 : Order) (isLong : bool) (market : DerivativeMarket)
    (currBlockTime expiration margin price quantity ratio alpha : Z) :
  ComputeAndSetOrderType FromHex order = Returns (order1, None) ->
  BigNum_Int (ExpirationTimeSeconds (GetOrder order)) = Some expiration ->
  currBlockTime < expiration ->
  BigNum_Int (MakerFee (GetOrder order)) = Some margin ->
  BigNum_Int (MakerAssetAmount (GetOrder order)) = Some price ->
  BigNum_Int (TakerAssetAmount (GetOrder order)) = Some quantity ->
  BigNum_Int (InitialMarginRatio market) = Some ratio ->
  ScalePermyriad quantity ratio = Returns alpha ->
  alpha * price <= margin ->
  (if isLong then alpha = quantity else alpha = - quantity) ->
  DoesValidationPass FromHex order isLong market currBlockTime
    = Panics DivisionByZero.
Proof.
  intros Hc He Ht Hm Hp Hq Hr Ha Hle Hz.
  pose proof (ComputeAndSetOrderType_keeps_order _ _ _ _ Hc) as Hk.
  unfold DoesValidationPass. rewrite Hc. cbn [bind].
  rewrite Hk, (Int_parsed _ _ He). cbn [bind].
  destruct (Z.leb_spec expiration currBlockTime); [lia |].
  rewrite (Int_parsed _ _ Hm). cbn [bind].
  rewrite (ComputeContractPriceMarginRequirement_value
             order1 market price quantity ratio alpha)
    by (rewrite ?Hk; assumption).
  cbn [bind].
  destruct (Z.ltb_spec margin (alpha * price)); [lia |].
  rewrite (ComputeIndexPriceMarginRequirement_unfold
             order1 isLong market price quantity margin ratio alpha)
    by (rewrite ?Hk; assumption).
  assert (indexPriceDenominator isLong alpha quantity = 0) as ->.
  { unfold indexPriceDenominator. destruct isLong; lia. }
  rewrite Div_by_zero. reflexivity.
Qed.

End Pipeline.

(** The further properties at the sample data. *)

Lemma ScalePermyriad_monotone_bounded_sample :
  exists ra rb,
    ScalePermyriad 10 1000 = Returns ra /\ ScalePermyriad 25 1000 = Returns rb
    /\ ra <= rb /\ 0 <= ra <= 10.
Proof.
  destruct (ScalePermyriad_monotone_bounded 10 25 1000 ltac:(lia) ltac:(lia))
    as [ra [rb [Ha [Hb [Hle Hbound]]]]].
  exists ra, rb. repeat split; try assumption; apply Hbound; lia.
Defined.

Lemma IncrementByScaledPermyriad_adds_sample :
  150 <= 150 + 150 * 1000 / 10000.
Proof.
  apply (proj2 (proj2 (IncrementByScaledPermyriad_adds 150 1000))); lia.
Defined.

Lemma ComputeOrderMarginHold_whole_and_none_sample :
  ComputeOrderMarginHold sampleOrder 10 1000 = Returns 165
  /\ ComputeOrderMarginHold sampleOrder 0 1000 = Returns 0.
Proof.
  destruct (ComputeOrderMarginHold_whole_and_none sampleOrder 1000 150 10
              eq_refl eq_refl ltac:(lia)) as [Hw Hn].
  split; [rewrite Hw; reflexivity | exact Hn].
Defined.


Lemma ComputeContractPriceMarginRequirement_rounds_first_sample :
  exists requirement,
    ComputeContractPriceMarginRequirement sampleOrder sampleMarket
      = Returns requirement
    /\ requirement = 10 * 1000 / 10000 * 100
    /\ requirement <= 10 * 1000 * 100 / 10000
    /\ ((10 * 1000) mod 10000 = 0 -> requirement = 10 * 1000 * 100 / 10000).
Proof.
  apply (ComputeContractPriceMarginRequirement_rounds_first
           sampleOrder sampleMarket 100 10 1000);
    first [reflexivity | lia].
Defined.

Lemma DoesValidationPass_same_signed_order_sample :
  match DoesValidationPass FromHex_exact sampleOrder true sampleMarket 2000,
        DoesValidationPass FromHex_exact
          (mkOrder (GetOrder sampleOrder) 5 "95") true sampleMarket 2000 with
  | Panics f, Panics f' => f = f'
  | Returns (r, err), Returns (r', err') =>
      err = err'
      /\ GetOrder r = GetOrder sampleOrder /\ GetOrder r' = GetOrder sampleOrder
      /\ (OrderType r' = OrderType r \/ (OrderType r = 0 /\ OrderType r' = 5))
      /\ (IndexPriceRequirement r' = IndexPriceRequirement r
          \/ (IndexPriceRequirement r = "" /\ IndexPriceRequirement r' = "95"))
  | _, _ => False
  end.
Proof.
  exact (DoesValidationPass_same_signed_order FromHex_exact
           sampleOrder (mkOrder (GetOrder sampleOrder) 5 "95")
           true sampleMarket 2000 eq_refl).
Defined.

Lemma DoesValidationPass_idempotent_sample :
  DoesValidationPass FromHex_exact (set_OrderType sampleOrder 5) true sampleMarket 2000
    = Returns (set_OrderType sampleOrder 5, Some (orderExpired 2000 2000)).
Proof.
  apply (DoesValidationPass_idempotent FromHex_exact sampleOrder).
  reflexivity.
Defined.

(** The sample order is accepted with the index price equal to the
    requirement. *)
Lemma index_price_step_decides_sample :
  DoesValidationPass FromHex_exact sampleOrder true sampleMarket 1000
    = Returns (set_IndexPriceRequirement (set_OrderType sampleOrder 5) "95", None).
Proof.
  apply (proj2 (index_price_step_decides FromHex_exact
                  sampleOrder (set_OrderType sampleOrder 5)
                  (set_IndexPriceRequirement (set_OrderType sampleOrder 5) "95")
                  true sampleMarket 1000 2000 150 100 95 95
                  eq_refl eq_refl ltac:(lia) eq_refl eq_refl ltac:(lia)
                  eq_refl eq_refl)).
Defined.

Lemma accepted_order_meets_every_requirement_sample :
  exists expiration margin price quantity ratio indexPrice req,
    BigNum_Int "2000" = Some expiration
    /\ BigNum_Int "150" = Some margin
    /\ BigNum_Int "100" = Some price
    /\ BigNum_Int "10" = Some quantity
    /\ BigNum_Int "1000" = Some ratio
    /\ BigNum_Int "95" = Some indexPrice
    /\ 1000 < expiration
    /\ quantity * ratio / 10000 * price <= margin
    /\ req <= indexPrice.
Proof.
  destruct (accepted_order_meets_every_requirement FromHex_exact
              sampleOrder
              (set_IndexPriceRequirement (set_OrderType sampleOrder 5) "95")
              true sampleMarket 1000 eq_refl)
    as [e [m [p [q [r [i [req H]]]]]]].
  exists e, m, p, q, r, i, req. intuition.
Defined.

Lemma DoesValidationPass_division_by_zero_sample :
  DoesValidationPass FromHex_exact fullyMarginedOrder true fullMarginMarket 1000
    = Panics DivisionByZero.
Proof.
  apply (DoesValidationPass_division_by_zero FromHex_exact
           fullyMarginedOrder (set_OrderType fullyMarginedOrder 5)
           true fullMarginMarket 1000 2000 1000 100 10 10000 10);
    first [reflexivity | lia].
Defined.

(** ** Signatures, once more *)

Section Signatures.

Variable FromHex : string -> slice.
Variable zeroex : SignatureTypes.

(** X12.  [isValidSignature] panics with an index out of range exactly on
    the signatures that decode to no bytes at all, and returns a verdict on
    every other signature. *)
Theorem isValidSignature_empty_panics (sig : string) :
  (elems (FromHex sig) = [] <->
     isValidSignature FromHex zeroex sig = Panics IndexOutOfRange)
  /\ (elems (FromHex sig) <> [] ->
        returned (isValidSignature FromHex zeroex sig)).
Proof.
  destruct (elems (FromHex sig)) as [| b l _] eqn:E using rev_ind.
  - assert (Hp : isValidSignature FromHex zeroex sig = Panics IndexOutOfRange).
    { unfold isValidSignature, last_byte. rewrite E. reflexivity. }
    rewrite Hp. split; [split; reflexivity | congruence].
  - assert (Hr : returned (isValidSignature FromHex zeroex sig)).
    { unfold isValidSignature, last_byte. rewrite E, rev_app_distr.
      cbn [rev app bind].
      repeat match goal with
        | |- context [if ?c then _ else _] => destruct c
        end; eexists; reflexivity. }
    split; [split; intros H | intros _; exact Hr].
    + destruct l; discriminate H.
    + destruct Hr as [v Hv]. rewrite Hv in H. discriminate H.
Qed.

(** X13.  What an accepted signature looks like: it has a last byte, that
    byte is neither the Invalid nor the Illegal tag, and it is the EIP712 or
    EthSign tag on 66 bytes, the Validator tag on at least 21 bytes, or one
    of the PreSigned, Wallet and EIP1271-wallet tags. *)
Theorem accepted_signature_shape (sig : string) :
  isValidSignature FromHex zeroex sig = Returns true ->
  exists front tag,
    elems (FromHex sig) = front ++ [tag]
    /\ tag <> InvalidSignature zeroex /\ tag <> IllegalSignature zeroex
    /\ (((tag = EIP712Signature zeroex \/ tag = EthSignSignature zeroex)
         /\ length (elems (FromHex sig)) = 66%nat)
        \/ (tag = ValidatorSignature zeroex
            /\ (21 <= length (elems (FromHex sig)))%nat)
        \/ tag = PreSignedSignature zeroex
        \/ tag = WalletSignature zeroex
        \/ tag = EIP1271WalletSignature zeroex).
Proof.
  unfold isValidSignature, last_byte, len.
  destruct (elems (FromHex sig)) as [| tag front] eqn:E using rev_ind;
    [cbn; discriminate |].
  clear IHfront. rewrite rev_app_distr. cbn [rev app bind].
  set (n := length (front ++ [tag])).
  intros H. exists front, tag. split; [reflexivity |].
  repeat match type of H with
    | context [Byte.eqb ?a ?b] =>
        let Eb := fresh "Eb" in
        destruct (Byte.eqb a b) eqn:Eb;
        [apply byte_dec_bl in Eb | apply eqb_false in Eb]
    end;
    cbn [orb negb] in H;
    try discriminate H;
    repeat match type of H with
      | context [(?a =? ?b)%nat] =>
          destruct (Nat.eqb_spec a b); cbn [negb] in H
      | context [(?a <? ?b)%nat] => destruct (Nat.ltb_spec a b)
      end;
    try discriminate H;
    (split; [assumption |]); (split; [assumption |]);
    first [ left; split; [auto | assumption]
          | right; left; split; [assumption | lia]
          | right; right; tauto ].
Qed.

End Signatures.

Lemma isValidSignature_empty_panics_sample :
  isValidSignature FromHex_exact sampleTags "0x" = Panics IndexOutOfRange.
Proof.
  apply (proj1 (proj1 (isValidSignature_empty_panics
                         FromHex_exact sampleTags "0x"))).
  reflexivity.
Defined.

Lemma accepted_signature_shape_sample :
  exists front tag,
    elems (FromHex_exact signature66) = front ++ [tag]
    /\ tag <> x01 /\ tag <> x00.
Proof.
  destruct (accepted_signature_shape FromHex_exact sampleTags signature66 eq_refl)
    as [front [tag [He [H1 [H0 _]]]]].
  exists front, tag. auto.
Defined.

(** ** Identifiers, once more *)

Lemma setBytes_length (n : nat) (b : list byte) :
  length (common.setBytes n b) = n.
Proof.
  unfold common.setBytes. rewrite length_app, repeat_length, length_skipn. lia.
Qed.

Lemma SetBytes_fold (l : list byte) (acc : Z) :
  fold_left (fun a b => a * 256 + Z.of_N (Byte.to_N b)) l acc
    = acc * 256 ^ Z.of_nat (length l) + big.SetBytes l.
Proof.
  unfold big.SetBytes. revert acc.
  induction l as [| b l IH]; intros acc.
  - cbn. lia.
  - cbn [fold_left length]. rewrite IH, (IH (0 * 256 + _)).
    rewrite Nat2Z.inj_succ, Z.pow_succ_r by lia. ring.
Qed.

Lemma SetBytes_cons (b : byte) (l : list byte) :
  big.SetBytes (b :: l)
    = Z.of_N (Byte.to_N b) * 256 ^ Z.of_nat (length l) + big.SetBytes l.
Proof.
  unfold big.SetBytes at 1. cbn [fold_left]. rewrite SetBytes_fold. ring.
Qed.

Lemma SetBytes_zeros (k : nat) (l : list byte) :
  big.SetBytes (repeat x00 k ++ l) = big.SetBytes l.
Proof.
  induction k as [| k IH]; [reflexivity |].
  cbn [repeat app]. rewrite SetBytes_cons, IH. cbn. lia.
Qed.

Lemma byte_of_N_value (n : N) : (n < 256)%N -> Byte.to_N (byte_of_N n) = n.
Proof.
  intros H. unfold byte_of_N.
  destruct (Byte.of_N n) as [b |] eqn:E.
  - apply Byte.to_of_N. exact E.
  - apply Byte.of_N_None_iff in E. lia.
Qed.

Lemma size_nat_bound (n : N) : (n < 2 ^ N.of_nat (N.size_nat n))%N.
Proof.
  destruct n as [| p]; [cbn; lia |]. cbn [N.size_nat].
  induction p as [p IH | p IH |]; cbn [Pos.size_nat];
    [ replace (N.of_nat (S (Pos.size_nat p))) with (N.succ (N.of_nat (Pos.size_nat p)))
        by lia; rewrite N.pow_succ_r'; lia
    | replace (N.of_nat (S (Pos.size_nat p))) with (N.succ (N.of_nat (Pos.size_nat p)))
        by lia; rewrite N.pow_succ_r'; lia
    | cbn; lia ].
Qed.

(** The loop of [Bytes] with enough fuel: it puts the digits of [n] in
    base 256 in front of what it has. *)
Lemma bytes_of_N_value (fuel : nat) (n : N) (acc : list byte) :
  (n < 2 ^ N.of_nat fuel)%N ->
  big.SetBytes (big.bytes_of_N fuel n acc)
    = Z.of_N n * 256 ^ Z.of_nat (length acc) + big.SetBytes acc.
Proof.
  revert n acc. induction fuel as [| fuel IH]; intros n acc Hf.
  - cbn in Hf. assert (n = 0%N) as -> by lia.
    cbn [big.bytes_of_N]. change (Z.of_N 0) with 0. lia.
  - cbn [big.bytes_of_N]. destruct (N.eqb_spec n 0) as [-> | Hn];
      [change (Z.of_N 0) with 0; lia |].
    rewrite IH.
    + rewrite SetBytes_cons. cbn [length].
      fold (byte_of_N (n mod 256)).
      rewrite byte_of_N_value by (apply N.mod_lt; lia).
      rewrite Nat2Z.inj_succ, Z.pow_succ_r by lia.
      pose proof (N.div_mod n 256 ltac:(lia)) as Hdm.
      assert (Z.of_N n = 256 * Z.of_N (n / 256) + Z.of_N (n mod 256)) by lia.
      nia.
    + replace (N.of_nat (S fuel)) with (N.succ (N.of_nat fuel)) in Hf by lia.
      rewrite N.pow_succ_r' in Hf.
      apply N.Div0.div_lt_upper_bound; lia.
Qed.

Lemma Bytes_value (x : Z) : big.SetBytes (big.Bytes x) = Z.abs x.
Proof.
  unfold big.Bytes. rewrite bytes_of_N_value by apply size_nat_bound.
  cbn [length]. change (big.SetBytes []) with 0. rewrite N2Z.inj_abs_N. cbn. lia.
Qed.

Lemma bytes_of_N_length (fuel k : nat) (n : N) (acc : list byte) :
  (n < 256 ^ N.of_nat k)%N ->
  (length (big.bytes_of_N fuel n acc) <= length acc + k)%nat.
Proof.
  revert k n acc. induction fuel as [| fuel IH]; intros k n acc Hk;
    cbn [big.bytes_of_N]; [lia |].
  destruct (N.eqb_spec n 0) as [-> | Hn]; [lia |].
  destruct k as [| k]; [cbn in Hk; lia |].
  replace (N.of_nat (S k)) with (N.succ (N.of_nat k)) in Hk by lia.
  rewrite N.pow_succ_r' in Hk.
  specialize (IH k (n / 256)%N
                (match Byte.of_N (n mod 256) with Some b => b | None => x00 end :: acc)).
  cbn [length] in IH.
  assert (n / 256 < 256 ^ N.of_nat k)%N by (apply N.Div0.div_lt_upper_bound; lia).
  specialize (IH H). lia.
Qed.

Lemma SetBytes_bound (l : list byte) :
  0 <= big.SetBytes l < 256 ^ Z.of_nat (length l).
Proof.
  induction l as [| b l IH]; [cbn; lia |].
  rewrite SetBytes_cons. cbn [length].
  rewrite Nat2Z.inj_succ, Z.pow_succ_r by lia.
  assert (0 <= Z.of_N (Byte.to_N b) < 256).
  { pose proof (Byte.to_N_bounded b). lia. }
  nia.
Qed.

Section Identifiers.

Variable FromHex : string -> slice.
Variable Keccak256Hash : list byte -> list byte.

(** X14.  The market identifier always has 32 bytes, and taker asset data
    of fewer than 32 bytes, empty or all zero included, always makes the
    order short, with the taker data padded on the left with zeros as its
    market. *)
Theorem short_taker_data_is_short
    (m : BaseOrder) (isLong : bool) (marketID subaccountID : list byte) :
  GetDirectionMarketAndSubaccountID FromHex Keccak256Hash m
    = Returns (isLong, marketID, subaccountID) ->
  length marketID = 32%nat
  /\ ((len (FromHex (TakerAssetData m)) < 32)%nat ->
      isLong = false
      /\ marketID = repeat x00 (32 - len (FromHex (TakerAssetData m)))
                      ++ elems (FromHex (TakerAssetData m))).
Proof.
  unfold GetDirectionMarketAndSubaccountID.
  destruct (truncate_to_HashLength (FromHex (MakerAssetData m))) as [ms [-> Hms]].
  destruct (truncate_to_HashLength (FromHex (TakerAssetData m))) as [ts [-> Hts]].
  cbn [bind].
  destruct (ComputeSubaccountID _ _ _ _) as [sub |]; cbn [bind];
    [| destruct (bytes_Equal _ _); discriminate].
  change common.HashLength with 32%nat in Hts.
  destruct (bytes_Equal (elems ts) common.zeroHash) eqn:E;
    cbn [bind]; intros H; injection H as <- <- <-.
  - split; [apply setBytes_length |].
    intros Hshort. exfalso.
    apply bytes_Equal_eq in E.
    assert (Hl : length (elems ts) = 32%nat) by (rewrite E; reflexivity).
    rewrite Hts, length_firstn in Hl. unfold len in Hshort. lia.
  - split; [apply setBytes_length |].
    intros Hshort. split; [reflexivity |].
    unfold len in Hshort.
    rewrite Hts, firstn_all2 by lia.
    rewrite BytesToHash_pads by (change common.HashLength with 32%nat; lia).
    reflexivity.
Qed.

Lemma HexToAddress_length (s : string) : length (HexToAddress FromHex s) = 20%nat.
Proof. apply setBytes_length. Qed.

(** X15.  The layout of what [ComputeSubaccountID] hashes.  For a taker fee
    whose magnitude is below 2^256 it hashes 52 bytes: the 20 bytes of the
    maker address, then 32 bytes that read, big-endian, as the magnitude of
    the fee.  A fee of 2^256 or more is not padded, and more than 52 bytes
    are hashed. *)
Theorem ComputeSubaccountID_preimage (makerAddress takerFee : string) (fee : Z) :
  BigNum_Int takerFee = Some fee ->
  exists preimage,
    ComputeSubaccountID FromHex Keccak256Hash makerAddress takerFee
      = Returns (Keccak256Hash preimage)
    /\ firstn 20 preimage = HexToAddress FromHex makerAddress
    /\ big.SetBytes (skipn 20 preimage) = Z.abs fee
    /\ (Z.abs fee < 2 ^ 256 -> length preimage = 52%nat)
    /\ (2 ^ 256 <= Z.abs fee -> (52 < length preimage)%nat).
Proof.
  intros Hfee. unfold ComputeSubaccountID. rewrite (Int_parsed _ _ Hfee). cbn [bind].
  eexists. split; [reflexivity |].
  pose proof (HexToAddress_length makerAddress) as Ha.
  assert (Hf : firstn 20 (HexToAddress FromHex makerAddress
                            ++ common.LeftPadBytes (big.Bytes fee) 32)
               = HexToAddress FromHex makerAddress).
  { rewrite <- Ha at 1. rewrite firstn_app, firstn_all, Nat.sub_diag.
    cbn [firstn]. apply app_nil_r. }
  assert (Hs : skipn 20 (HexToAddress FromHex makerAddress
                           ++ common.LeftPadBytes (big.Bytes fee) 32)
               = common.LeftPadBytes (big.Bytes fee) 32).
  { rewrite <- Ha at 1. rewrite skipn_app, skipn_all, Nat.sub_diag.
    reflexivity. }
  split; [exact Hf |]. rewrite Hs, length_app, Ha.
  unfold common.LeftPadBytes.
  destruct (Nat.leb_spec 32 (length (big.Bytes fee))) as [Hlen | Hlen].
  - split; [apply Bytes_value |]. split.
    + intros Hsmall.
      assert (length (big.Bytes fee) <= 32)%nat.
      { unfold big.Bytes.
        pose proof (bytes_of_N_length (N.size_nat (Z.abs_N fee)) 32
                      (Z.abs_N fee) []) as Hb.
        cbn [length] in Hb. apply Hb.
        change (256 ^ N.of_nat 32)%N with (Z.to_N (2 ^ 256)). lia. }
      lia.
    + intros Hbig.
      destruct (Nat.eq_dec (length (big.Bytes fee)) 32) as [E | N]; [| lia].
      exfalso.
      pose proof (SetBytes_bound (big.Bytes fee)) as Hb.
      rewrite Bytes_value, E in Hb.
      change (256 ^ Z.of_nat 32) with (2 ^ 256) in Hb.
      lia.
  - rewrite SetBytes_zeros, length_app, repeat_length.
    split; [apply Bytes_value |]. split; [lia |].
    intros Hbig. exfalso.
    pose proof (SetBytes_bound (big.Bytes fee)) as Hb.
    rewrite Bytes_value in Hb.
    assert (256 ^ Z.of_nat (length (big.Bytes fee)) <= 256 ^ 32)
      by (apply Z.pow_le_mono_r; lia).
    change (256 ^ 32) with (2 ^ 256) in H. lia.
Qed.

End Identifiers.

Lemma short_taker_data_is_short_sample :
  length (repeat x00 32) = 32%nat
  /\ false = false
  /\ repeat x00 32
     = repeat x00 (32 - len (FromHex_exact (TakerAssetData twentyZeroTaker)))
         ++ elems (FromHex_exact (TakerAssetData twentyZeroTaker)).
Proof.
  destruct (short_taker_data_is_short FromHex_exact sampleHash twentyZeroTaker
              false (repeat x00 32)
              (sampleHash (HexToAddress FromHex_exact (MakerAddress twentyZeroTaker)
                             ++ repeat x00 32))
              eq_refl) as [Hl Hs].
  split; [exact Hl |]. apply Hs. vm_compute. lia.
Defined.

Lemma ComputeSubaccountID_preimage_sample :
  exists preimage,
    ComputeSubaccountID FromHex_exact sampleHash
      "0x00000000000000000000000000000000000000aa" "258"
      = Returns (sampleHash preimage)
    /\ big.SetBytes (skipn 20 preimage) = 258
    /\ length preimage = 52%nat.
Proof.
  destruct (ComputeSubaccountID_preimage FromHex_exact sampleHash
              "0x00000000000000000000000000000000000000aa" "258" 258 eq_refl)
    as [preimage [Hrun [_ [Hv [Hl _]]]]].
  exists preimage. split; [exact Hrun |]. split; [exact Hv |].
  apply Hl. reflexivity.
Defined.

(** ** Messages *)

Section MessageProperties.

Variable FromHex : string -> slice.
Variable zeroex : SignatureTypes.
Variable ParseBig256 : string -> option Z.
Variable ComputeOrderHash : option ZeroEx.SignedOrder -> list byte * option string.


Lemma so2zo_cases (o : BaseOrder) :
  (exists so, so2zo FromHex ParseBig256 (Some o) = (Some so, None))
  \/ (exists err, so2zo FromHex ParseBig256 (Some o) = (None, Some err)).
Proof.
  unfold so2zo.
  repeat match goal with
    | |- context [match ParseBig256 ?s with _ => _ end] =>
        destruct (ParseBig256 s); [| right; eexists; reflexivity]
    end.
  left. eexists. reflexivity.
Qed.


(** X18.  What passing the check of a derivative order message means:
    [ValidateBasic] returns nil exactly when the sender is not empty, the
    order is present, all its amounts parse, its hash is computed without
    error, and [isValidSignature] accepts its signature. *)
Theorem MsgCreateDerivativeOrder_ValidateBasic_passes
    (msg : MsgCreateDerivativeOrder.t) :
  MsgCreateDerivativeOrder_ValidateBasic FromHex zeroex ParseBig256 ComputeOrderHash msg
    = Completes None
  <-> (MsgCreateDerivativeOrder.Sender msg <> ""
       /\ exists order so,
            MsgCreateDerivativeOrder.Order msg = Some order
            /\ so2zo FromHex ParseBig256 (Some order) = (Some so, None)
            /\ snd (ComputeOrderHash (Some so)) = None
            /\ isValidSignature FromHex zeroex (Signature order) = Returns true).
Proof.
  unfold MsgCreateDerivativeOrder_ValidateBasic.
  destruct msg as [sender order]. cbn [MsgCreateDerivativeOrder.Sender
                                         MsgCreateDerivativeOrder.Order].
  destruct sender as [| c sender]; cbn [empty].
  { split; [discriminate | intros [H _]; congruence]. }
  destruct order as [order |].
  2: { split; [discriminate | intros [_ [o [so [H _]]]]; discriminate H]. }
  unfold ToSignedOrder.
  destruct (so2zo_cases order) as [[so Hso] | [err Hso]]; rewrite Hso; cbn [ebind].
  2: { split; [discriminate | intros [_ [o [so [H [H' _]]]]]].
       injection H as <-. rewrite Hso in H'. discriminate H'. }
  destruct (snd (ComputeOrderHash (Some so))) as [err |] eqn:Hh.
  { split; [discriminate | intros [_ [o [so' [H [H' [H'' _]]]]]]].
    injection H as <-. rewrite Hso in H'. injection H' as <-.
    rewrite Hh in H''. discriminate H''. }
  destruct (isValidSignature FromHex zeroex (Signature order)) as [[|] |] eqn:Hv;
    cbn [run ebind negb].
  - split; [intros _ | reflexivity].
    split; [discriminate |]. exists order, so. auto.
  - split; [discriminate | intros [_ [o [so' [H [_ [_ H']]]]]]].
    injection H as <-. rewrite Hv in H'. discriminate H'.
  - split; [discriminate | intros [_ [o [so' [H [_ [_ H']]]]]]].
    injection H as <-. rewrite Hv in H'. discriminate H'.
Qed.

(** X19.  The check of a spot order message is the check of a derivative
    order message followed by the test of the quantity: whatever the
    derivative check returns or panics with, the spot check does too, except
    that where the derivative check passes the spot check asks in addition
    for a taker asset amount that parses and is positive. *)
Theorem MsgCreateSpotOrder_ValidateBasic_adds_quantity
    (sender : string) (order : option BaseOrder) :
  MsgCreateSpotOrder_ValidateBasic FromHex zeroex ParseBig256 ComputeOrderHash
    (MsgCreateSpotOrder.mk sender order)
  = match MsgCreateDerivativeOrder_ValidateBasic
            FromHex zeroex ParseBig256 ComputeOrderHash
            (MsgCreateDerivativeOrder.mk sender order) with
    | Completes None =>
        match BigNum_Int (GetTakerAssetAmount order) with
        | Some quantity =>
            if 0 <? quantity then Completes None
            else Completes (Some (Wrap ErrInsufficientOrderQuantity
                                    "insufficient quantity"))
        | None =>
            Completes (Some (Wrap ErrInsufficientOrderQuantity
                               "insufficient quantity"))
        end
    | other => other
    end.
Proof.
  unfold MsgCreateSpotOrder_ValidateBasic, MsgCreateDerivativeOrder_ValidateBasic.
  cbn [MsgCreateSpotOrder.Sender MsgCreateSpotOrder.Order
       MsgCreateDerivativeOrder.Sender MsgCreateDerivativeOrder.Order].
  destruct (empty sender); [reflexivity |].
  destruct order as [order |]; [| reflexivity].
  destruct (ToSignedOrder FromHex ParseBig256 (Some order)) as [so | p];
    cbn [ebind]; [| reflexivity].
  destruct (snd (ComputeOrderHash so)); [reflexivity |].
  destruct (isValidSignature FromHex zeroex (Signature order)) as [[|] |];
    cbn [run ebind negb]; try reflexivity.
  destruct (BigNum_Int (GetTakerAssetAmount (Some order))) as [quantity |];
    [| reflexivity].
  destruct (Z.leb_spec quantity 0), (Z.ltb_spec 0 quantity); try reflexivity; lia.
Qed.

(** X20.  The checks of the order messages can panic instead of returning
    an error.  For a message with a sender and an order: an amount that
    does not parse makes them panic with the error of the conversion; and
    when the amounts parse and the hash is computed, a signature that
    decodes to no bytes makes them panic with an index out of range. *)
Theorem order_message_checks_panic
    (sender : string) (order : BaseOrder) :
  sender <> "" ->
  (forall err,
      so2zo FromHex ParseBig256 (Some order) = (None, Some err) ->
      MsgCreateDerivativeOrder_ValidateBasic
        FromHex zeroex ParseBig256 ComputeOrderHash
        (MsgCreateDerivativeOrder.mk sender (Some order))
        = Panicked (PanicError err)
      /\ MsgCreateSpotOrder_ValidateBasic
           FromHex zeroex ParseBig256 ComputeOrderHash
           (MsgCreateSpotOrder.mk sender (Some order))
         = Panicked (PanicError err))
  /\ (forall so,
         so2zo FromHex ParseBig256 (Some order) = (Some so, None) ->
         snd (ComputeOrderHash (Some so)) = None ->
         elems (FromHex (Signature order)) = [] ->
         MsgCreateDerivativeOrder_ValidateBasic
           FromHex zeroex ParseBig256 ComputeOrderHash
           (MsgCreateDerivativeOrder.mk sender (Some order))
           = Panicked (RuntimeFault IndexOutOfRange)
         /\ MsgCreateSpotOrder_ValidateBasic
              FromHex zeroex ParseBig256 ComputeOrderHash
              (MsgCreateSpotOrder.mk sender (Some order))
            = Panicked (RuntimeFault IndexOutOfRange)).
Proof.
  intros Hs.
  assert (He : empty sender = false) by (destruct sender; [contradiction | reflexivity]).
  unfold MsgCreateSpotOrder_ValidateBasic, MsgCreateDerivativeOrder_ValidateBasic.
  cbn [MsgCreateSpotOrder.Sender MsgCreateSpotOrder.Order
       MsgCreateDerivativeOrder.Sender MsgCreateDerivativeOrder.Order].
  rewrite He. unfold ToSignedOrder. split.
  - intros err Hso. rewrite Hso. split; reflexivity.
  - intros so Hso Hh Hsig. rewrite Hso. cbn [ebind]. rewrite Hh.
    assert (Hp : isValidSignature FromHex zeroex (Signature order)
                 = Panics IndexOutOfRange).
    { unfold isValidSignature, last_byte. rewrite Hsig. reflexivity. }
    rewrite Hp. split; reflexivity.
Qed.

End MessageProperties.

(** ** Registration, suspension and resumption *)

Lemma empty_iff (s : string) : empty s = true <-> s = "".
Proof. destruct s; cbn; split; congruence. Qed.

Lemma empty_false_iff (s : string) : empty s = false <-> s <> "".
Proof. destruct s; cbn; split; congruence. Qed.

Section Split.

Variable sep : ascii.

Lemma Split_cons (c : ascii) (s : string) :
  exists piece pieces,
    strings_Split s sep = piece :: pieces
    /\ strings_Split (String c s) sep =
         if Ascii.eqb c sep then "" :: piece :: pieces
         else String c piece :: pieces.
Proof.
  assert (H : exists piece pieces, strings_Split s sep = piece :: pieces).
  { destruct s as [| d s]; cbn [strings_Split]; [eauto |].
    destruct (Ascii.eqb d sep); [eauto |].
    destruct (strings_Split s sep); eauto. }
  destruct H as [piece [pieces H]]. exists piece, pieces.
  split; [exact H |]. cbn [strings_Split]. rewrite H. reflexivity.
Qed.

Lemma Split_without_separator (a : string) :
  ~ In sep (list_ascii_of_string a) -> strings_Split a sep = [a].
Proof.
  induction a as [| c a IH]; intros H; [reflexivity |].
  cbn [list_ascii_of_string In] in H.
  destruct (Split_cons c a) as [piece [pieces [Hs ->]]].
  destruct (Ascii.eqb_spec c sep) as [-> | _]; [tauto |].
  rewrite IH in Hs by tauto. injection Hs as <- <-. reflexivity.
Qed.

Lemma Split_at_separator (a b : string) :
  ~ In sep (list_ascii_of_string a) ->
  strings_Split (a ++ String sep b) sep = a :: strings_Split b sep.
Proof.
  induction a as [| c a IH]; intros H.
  - cbn [append strings_Split]. rewrite Ascii.eqb_refl. reflexivity.
  - cbn [list_ascii_of_string In] in H. cbn [append].
    destruct (Split_cons c (a ++ String sep b)) as [piece [pieces [Hs ->]]].
    destruct (Ascii.eqb_spec c sep) as [-> | _]; [tauto |].
    rewrite IH in Hs by tauto. injection Hs as <- <-. reflexivity.
Qed.

Lemma Split_first_piece (s piece : string) (pieces : list string) :
  strings_Split s sep = piece :: pieces ->
  ~ In sep (list_ascii_of_string piece)
  /\ ((pieces = [] /\ s = piece)
      \/ exists rest,
           s = (piece ++ String sep rest)%string
           /\ strings_Split rest sep = pieces).
Proof.
  revert piece pieces. induction s as [| c s IH]; intros piece pieces H.
  - cbn in H. injection H as <- <-. cbn. tauto.
  - destruct (Split_cons c s) as [p [ps [Hs Hc]]]. rewrite Hc in H.
    destruct (Ascii.eqb_spec c sep) as [-> | Hne].
    + injection H as <- <-. split; [cbn; tauto |].
      right. exists s. split; [reflexivity | exact Hs].
    + injection H as <- <-.
      destruct (IH p ps Hs) as [Hin Hrest]. split.
      * cbn [list_ascii_of_string In]. intros [E | E]; [congruence | tauto].
      * destruct Hrest as [[-> ->] | [rest [-> Hr]]]; [left; auto |].
        right. exists rest. split; [reflexivity | exact Hr].
Qed.

(** Exactly two pieces: one separator, with the pieces around it. *)
Lemma Split_two (s a b : string) :
  strings_Split s sep = [a; b]
  <-> (s = (a ++ String sep b)%string
       /\ ~ In sep (list_ascii_of_string a)
       /\ ~ In sep (list_ascii_of_string b)).
Proof.
  split.
  - intros H. destruct (Split_first_piece _ _ _ H) as [Ha [[E _] | [rest [-> Hr]]]];
      [discriminate E |].
    destruct (Split_first_piece _ _ _ Hr) as [Hb [[_ ->] | [rest' [_ Hr']]]].
    + auto.
    + exfalso. destruct rest'; cbn in Hr'; [discriminate |].
      destruct (Ascii.eqb _ _); [discriminate |].
      destruct (strings_Split rest' sep); discriminate.
  - intros [-> [Ha Hb]].
    rewrite Split_at_separator by exact Ha.
    rewrite Split_without_separator by exact Hb. reflexivity.
Qed.

End Split.

Lemma notAPair_iff (TrimSpace : string -> string) (name : string) :
  notAPair TrimSpace name = false <-> isPair TrimSpace name.
Proof.
  unfold notAPair, isPair. split.
  - destruct (strings_Split name "/") as [| base [| quote [| extra rest]]] eqn:E;
      try discriminate.
    intros H. apply orb_false_iff in H. destruct H as [Hb Hq].
    apply Split_two in E. destruct E as [-> [Ha Hb']].
    exists base, quote. rewrite empty_false_iff in Hb, Hq. auto.
  - intros [base [quote [-> [Ha [Hb [Hta Htb]]]]]].
    assert (E : strings_Split (base ++ "/" ++ quote) "/" = [base; quote])
      by (apply Split_two; auto).
    rewrite E. apply orb_false_iff. rewrite !empty_false_iff. auto.
Qed.

(** X21.  [MsgRegisterSpotMarket.ValidateBasic] returns nil exactly when the
    sender is not empty, the name is a base and a quote around exactly one
    ["/"] with neither trimming to nothing, and both asset data are not
    empty. *)
Theorem MsgRegisterSpotMarket_ValidateBasic_passes
    (TrimSpace : string -> string) (msg : MsgRegisterSpotMarket.t) :
  MsgRegisterSpotMarket_ValidateBasic TrimSpace msg = None
  <-> (MsgRegisterSpotMarket.Sender msg <> ""
       /\ isPair TrimSpace (MsgRegisterSpotMarket.Name msg)
       /\ MsgRegisterSpotMarket.MakerAssetData msg <> ""
       /\ MsgRegisterSpotMarket.TakerAssetData msg <> "").
Proof.
  unfold MsgRegisterSpotMarket_ValidateBasic.
  rewrite <- notAPair_iff, <- !empty_false_iff.
  destruct (empty (MsgRegisterSpotMarket.Sender msg));
    [split; [discriminate | intros [H _]; discriminate H] |].
  destruct (empty (MsgRegisterSpotMarket.Name msg)) eqn:En.
  { split; [discriminate |]. intros [_ [H _]]. exfalso.
    apply empty_iff in En. rewrite En in H. discriminate H. }
  destruct (notAPair TrimSpace (MsgRegisterSpotMarket.Name msg));
    [split; [discriminate | intros [_ [H _]]; discriminate H] |].
  destruct (empty (MsgRegisterSpotMarket.MakerAssetData msg));
    [split; [discriminate | intros [_ [_ [H _]]]; discriminate H] |].
  destruct (empty (MsgRegisterSpotMarket.TakerAssetData msg));
    [split; [discriminate | intros [_ [_ [_ H]]]; discriminate H] |].
  tauto.
Qed.

(** X22.  [MsgRegisterDerivativeMarket.ValidateBasic] looks at the sender and
    the ticker only: it returns nil exactly when the sender is not empty
    and the ticker is a base and a quote around exactly one ["/"] with
    neither trimming to nothing, whatever the margin ratio and the index
    price of the market are. *)
Theorem MsgRegisterDerivativeMarket_ValidateBasic_passes
    (TrimSpace : string -> string) (msg : MsgRegisterDerivativeMarket.t) :
  MsgRegisterDerivativeMarket_ValidateBasic TrimSpace msg = None
  <-> (MsgRegisterDerivativeMarket.Sender msg <> ""
       /\ isPair TrimSpace (Ticker (MsgRegisterDerivativeMarket.Market msg))).
Proof.
  unfold MsgRegisterDerivativeMarket_ValidateBasic.
  rewrite <- notAPair_iff, <- !empty_false_iff.
  destruct (empty (MsgRegisterDerivativeMarket.Sender msg));
    [split; [discriminate | intros [H _]; discriminate H] |].
  cbv zeta.
  destruct (empty (Ticker (MsgRegisterDerivativeMarket.Market msg))) eqn:En.
  { split; [discriminate |]. intros [_ H]. exfalso.
    apply empty_iff in En. rewrite En in H. discriminate H. }
  destruct (notAPair TrimSpace (Ticker (MsgRegisterDerivativeMarket.Market msg)));
    [split; [discriminate | intros [_ H]; discriminate H] |].
  tauto.
Qed.

(** X23.  Suspension and resumption are checked alike.  The two
    derivative-market checks pass on the same messages, those with a
    sender, a market ID and an exchange address, and always return an error
    of the same registered kind; their results differ only for a message
    that lacks nothing but the exchange address, in the description.  The
    two spot-market checks return the same result on every message and
    pass exactly when sender and name are not empty. *)
Theorem suspend_and_resume_checks_agree :
  (forall sender marketId exchangeAddress : string,
      let suspend := MsgSuspendDerivativeMarket_ValidateBasic
                       (MsgSuspendDerivativeMarket.mk sender marketId exchangeAddress) in
      let resume := MsgResumeDerivativeMarket_ValidateBasic
                      (MsgResumeDerivativeMarket.mk sender marketId exchangeAddress) in
      option_map root suspend = option_map root resume
      /\ (suspend = None <->
          sender <> "" /\ marketId <> "" /\ exchangeAddress <> "")
      /\ (suspend <> resume <->
          sender <> "" /\ marketId <> "" /\ exchangeAddress = ""))
  /\ (forall sender name : string,
         let suspend := MsgSuspendSpotMarket_ValidateBasic
                          (MsgSuspendSpotMarket.mk sender name) in
         let resume := MsgResumeSpotMarket_ValidateBasic
                         (MsgResumeSpotMarket.mk sender name) in
         suspend = resume
         /\ (suspend = None <-> sender <> "" /\ name <> "")).
Proof.
  split.
  - intros sender marketId exchangeAddress.
    destruct sender, marketId, exchangeAddress; cbn;
      repeat split; intros; try congruence; try tauto;
      try (destruct H as [? [? ?]]; congruence).
  - intros sender name.
    destruct sender, name; cbn; repeat split; intros; try congruence;
      try (destruct H; congruence).
Qed.

(** ** Decimal strings *)

Ltac eval_digit :=
  match goal with
  | |- context [digit_of ?c] =>
      let v := eval vm_compute in (digit_of c) in
      change (digit_of c) with v; cbv beta iota
  end.

Lemma digits_of_uint_acc (u : Decimal.uint) (acc : positive) :
  digits (NilEmpty.string_of_uint u) (Z.pos acc)
    = Some (Z.pos (Pos.of_uint_acc u acc)).
Proof.
  revert acc. induction u; intros acc;
    cbn [NilEmpty.string_of_uint digits Pos.of_uint_acc]; try reflexivity;
    eval_digit; rewrite <- IHu; f_equal; lia.
Qed.

Lemma digits_of_uint (u : Decimal.uint) :
  digits (NilEmpty.string_of_uint u) 0 = Some (Z.of_N (Pos.of_uint u)).
Proof.
  induction u; cbn [NilEmpty.string_of_uint digits Pos.of_uint]; try reflexivity;
    eval_digit; first [exact IHu | exact (digits_of_uint_acc u _)].
Qed.

Lemma to_uint_digit (p : positive) :
  exists c rest,
    NilZero.string_of_uint (Pos.to_uint p) = String c rest
    /\ NilEmpty.string_of_uint (Pos.to_uint p) = String c rest
    /\ BigNum_Int (String c rest) = digits (String c rest) 0
    /\ BigNum_Int (String "-" (String c rest))
       = option_map Z.opp (digits (String c rest) 0).
Proof.
  pose proof (DecimalPos.Unsigned.of_to p) as H.
  destruct (Pos.to_uint p) as [| u | u | u | u | u | u | u | u | u | u];
    [discriminate H | ..];
    eexists; eexists; (split; [reflexivity |]); (split; [reflexivity |]);
    split; reflexivity.
Qed.

(** The decimal string of an integer is read back as that integer. *)
Lemma BigNum_Int_of_String (z : Z) : BigNum_Int (big.String z) = Some z.
Proof.
  unfold big.String. destruct z as [| p | p]; [reflexivity | |];
    cbn [Z.to_int NilZero.string_of_int];
    destruct (to_uint_digit p) as [c [rest [E [E' [Hpos Hneg]]]]];
    rewrite E; [rewrite Hpos | rewrite Hneg];
    rewrite <- E', digits_of_uint, DecimalPos.Unsigned.of_to; reflexivity.
Qed.


(** X25.  The memoized requirement can be read back: after
    [ComputeIndexPriceMarginRequirement] has returned, [BigNum.Int] of the
    order's [IndexPriceRequirement] is the integer that was returned. *)
Theorem IndexPriceRequirement_reads_back
    (order order' : Order) (isLong : bool) (market : DerivativeMarket) (req : Z) :
  ComputeIndexPriceMarginRequirement order isLong market = Returns (order', req) ->
  BigNum_Int (IndexPriceRequirement order') = Some req
  /\ GetOrder order' = GetOrder order
  /\ OrderType order' = OrderType order.
Proof.
  intros H. rewrite (ComputeIndexPriceMarginRequirement_cases _ _ _ _ _ H).
  cbn [IndexPriceRequirement GetOrder OrderType set_IndexPriceRequirement].
  rewrite BigNum_Int_of_String. auto.
Qed.

Lemma IndexPriceRequirement_reads_back_sample :
  BigNum_Int "95" = Some 95.
Proof.
  apply (proj1 (IndexPriceRequirement_reads_back
                  sampleOrder (set_IndexPriceRequirement sampleOrder "95")
                  true sampleMarket 95 eq_refl)).
Defined.


Lemma MsgCreateDerivativeOrder_ValidateBasic_passes_sample :
  MsgCreateDerivativeOrder_ValidateBasic
    FromHex_exact sampleTags decimalBig256 sampleOrderHash
    (MsgCreateDerivativeOrder.mk "inj1sender" (Some (signedBaseOrder "10" signature66)))
  = Completes None.
Proof.
  apply (proj2 (MsgCreateDerivativeOrder_ValidateBasic_passes
                  FromHex_exact sampleTags decimalBig256 sampleOrderHash _)).
  split; [discriminate |].
  exists (signedBaseOrder "10" signature66). eexists.
  split; [reflexivity |]. split; [reflexivity |]. split; reflexivity.
Defined.

Lemma order_message_checks_panic_sample :
  MsgCreateSpotOrder_ValidateBasic
    FromHex_exact sampleTags decimalBig256 sampleOrderHash
    (MsgCreateSpotOrder.mk "inj1sender" (Some (signedBaseOrder "10" "0x")))
  = Panicked (RuntimeFault IndexOutOfRange).
Proof.
  refine (proj2 (proj2 (order_message_checks_panic
                          FromHex_exact sampleTags decimalBig256 sampleOrderHash
                          "inj1sender" (signedBaseOrder "10" "0x") _)
                   _ eq_refl eq_refl eq_refl)).
  discriminate.
Defined.

Lemma MsgRegisterSpotMarket_ValidateBasic_passes_sample :
  MsgRegisterSpotMarket_ValidateBasic noTrim
    (MsgRegisterSpotMarket.mk "inj1sender" "INJ/USDT" "0xa1" "0xb2") = None.
Proof.
  apply (proj2 (MsgRegisterSpotMarket_ValidateBasic_passes noTrim _)).
  split; [discriminate |]. split; [| split; discriminate].
  exists "INJ", "USDT". split; [reflexivity |].
  split; [cbn; intuition discriminate |].
  split; [cbn; intuition discriminate |].
  split; discriminate.
Defined.

Lemma MsgRegisterDerivativeMarket_ValidateBasic_passes_sample :
  MsgRegisterDerivativeMarket.Sender
    (MsgRegisterDerivativeMarket.mk "inj1sender" sampleMarket) <> ""
  /\ isPair noTrim "INJ/USDT".
Proof.
  apply (proj1 (MsgRegisterDerivativeMarket_ValidateBasic_passes noTrim
                  (MsgRegisterDerivativeMarket.mk "inj1sender" sampleMarket))).
  reflexivity.
Defined.

Lemma suspend_and_resume_checks_agree_sample :
  MsgSuspendDerivativeMarket_ValidateBasic
    (MsgSuspendDerivativeMarket.mk "inj1sender" "0x01" "")
  <> MsgResumeDerivativeMarket_ValidateBasic
       (MsgResumeDerivativeMarket.mk "inj1sender" "0x01" "").
Proof.
  apply (proj2 (proj2 (proj1 suspend_and_resume_checks_agree
                         "inj1sender" "0x01" ""))).
  repeat split; discriminate.
Defined.

